(** * Realtime collaborative whiteboard: relay server and drawing client

    A shallow embedding of [server/server.js] (the socket relay) and of the
    drawing core of [client/src/App.jsx] (snapshot history, pointer handlers,
    remote appliers, clear, text placement), with the properties of the
    specification stated over it.

    Conventions of the model.
    - JavaScript values that cross the wire are [Js.JsVal]; a missing
      property reads as [JUndefined].
    - JavaScript numbers are modelled by [Z]: the code only adds, subtracts,
      multiplies by small constants and tests for zero; fractional pointer
      coordinates and device pixel ratios are outside the model.
    - A string is the sequence of the UTF-8 bytes of the JavaScript string.
    - The 2D context is a record of its attributes.  A browser's context
      keeps an attribute's previous value when it is assigned one it cannot
      use (a line width that is not positive, a string that is no colour or
      no font); the setters here are the assignments of values the context
      accepts ([Canvas.accepts_colour], [Canvas.accepts_lineWidth],
      [Canvas.accepts_font]), and what is stated of the attributes a remote
      message leaves in the context is stated of messages that carry such
      values.
    - The browser's rasteriser is a parameter ([paint]): nothing below
      depends on which pixels a stroke covers. *)

From Stdlib Require Import ZArith String Ascii List Bool Lia.
From stdpp Require Import base option list gmap strings.
Import ListNotations.

#[local] Open Scope string_scope.
#[local] Open Scope list_scope.
#[local] Open Scope Z_scope.

(* ===================================================================== *)
(** ** JavaScript values *)
(* ===================================================================== *)

Module Js.

#[local] Set Warnings "-register-all".

Inductive JsVal : Type :=
| JUndefined
| JNull
| JBool (b : bool)
| JNum (n : Z)
| JStr (s : string)
| JArr (items : list JsVal)
| JObj (fields : list (string * JsVal)).

(** ToBoolean: what [!v], [v && w] and [v || w] test. *)
Definition truthy (v : JsVal) : bool :=
  match v with
  | JUndefined | JNull => false
  | JBool b => b
  | JNum n => negb (n =? 0)
  | JStr s => negb (String.eqb s "")
  | JArr _ | JObj _ => true
  end.

(** [v || d] *)
Definition or_else (v d : JsVal) : JsVal := if truthy v then v else d.

Fixpoint assoc (k : string) (fs : list (string * JsVal)) : JsVal :=
  match fs with
  | [] => JUndefined
  | (k', v) :: fs' => if String.eqb k' k then v else assoc k fs'
  end.

(** [v.k]: a TypeError ([None]) on [null] and [undefined]; the keys read by
    this program are own properties of objects only, so every other value
    answers [undefined]. *)
Definition prop (v : JsVal) (k : string) : option JsVal :=
  match v with
  | JUndefined | JNull => None
  | JObj fs => Some (assoc k fs)
  | _ => Some JUndefined
  end.

(** [v.k] where the source has already ruled out [null] and [undefined]. *)
Definition get (v : JsVal) (k : string) : JsVal :=
  match prop v k with Some w => w | None => JUndefined end.

(** [v === s] for a string [s]. *)
Definition strict_eq_str (v : JsVal) (s : string) : bool :=
  match v with
  | JStr t => String.eqb t s
  | _ => false
  end.

(** SameValueZero, the equality of [Map] and [Set] keys.  Arrays and objects
    are compared by reference; every message is deserialised into fresh
    objects, so two of them are never the same key. *)
Definition same_value_zero (a b : JsVal) : bool :=
  match a, b with
  | JUndefined, JUndefined => true
  | JNull, JNull => true
  | JBool x, JBool y => Bool.eqb x y
  | JNum x, JNum y => x =? y
  | JStr x, JStr y => String.eqb x y
  | _, _ => false
  end.

(** Whether the conversion of a received value to a string returns:
    [`${v}`] throws a TypeError on an object that carries a [toString] of
    its own, which is data and cannot be called and hides the inherited
    method, and on an array with such an item, which [join] converts.
    Primitives and the other objects convert. *)
Fixpoint to_string_ok (v : JsVal) : bool :=
  match v with
  | JArr items => forallb to_string_ok items
  | JObj fs => negb (existsb (fun kv => String.eqb (fst kv) "toString") fs)
  | _ => true
  end.

End Js.
Import Js.

(* ===================================================================== *)
(** ** The relay server ([server/server.js]) *)
(* ===================================================================== *)

Module Server.

Definition SocketId := string.

(** Modelled from the spec: the transport's room membership and its
    room-scoped broadcast ("join room, emit to room excluding sender").  The
    transport library is a dependency, not part of the sources; its adapter
    is the list of (room, socket) memberships in joining order, every socket
    being a member of the room named by its own id from connection on. *)
Definition Adapter := list (JsVal * SocketId).

Definition room_sids (a : Adapter) (room : JsVal) : list SocketId :=
  map snd (List.filter (fun m => same_value_zero (fst m) room) a).

Definition all_sids (a : Adapter) : list SocketId :=
  nodup string_dec (map snd a).

(** [to(room)] and [join(room)] take one room or an array of rooms. *)
Definition room_list (room : JsVal) : list JsVal :=
  match room with
  | JArr rs => rs
  | r => [r]
  end.

Definition mem_sid (s : SocketId) (l : list SocketId) : bool :=
  existsb (String.eqb s) l.

(** The sockets a broadcast reaches: the members of the target rooms (every
    socket when there is no target room) that are in none of the excepted
    rooms, each once. *)
Definition broadcast (a : Adapter) (rooms except : list JsVal) : list SocketId :=
  let excluded := flat_map (room_sids a) except in
  let candidates :=
    match rooms with
    | [] => all_sids a
    | _ => flat_map (room_sids a) rooms
    end in
  nodup string_dec (List.filter (fun s => negb (mem_sid s excluded)) candidates).

Definition add_member (a : Adapter) (sock : SocketId) (room : JsVal) : Adapter :=
  if mem_sid sock (room_sids a room) then a else a ++ [(room, sock)].

Definition join (a : Adapter) (sock : SocketId) (room : JsVal) : Adapter :=
  fold_left (fun acc r => add_member acc sock r) (room_list room) a.

Definition leave_all (a : Adapter) (sock : SocketId) : Adapter :=
  List.filter (fun m => negb (String.eqb (snd m) sock)) a.

(** One delivered event: recipient, event name, arguments. *)
Record Delivery := mkDelivery {
  recipient : SocketId;
  event : string;
  args : list JsVal
}.

(** [socket.to(room).emit(ev, ...args)] *)
Definition socket_to_emit (a : Adapter) (sock : SocketId) (room : JsVal)
    (ev : string) (payload : list JsVal) : list Delivery :=
  map (fun r => mkDelivery r ev payload)
      (broadcast a (room_list room) [JStr sock]).

(** [io.emit(ev, ...args)] *)
Definition io_emit (a : Adapter) (ev : string) (payload : list JsVal) : list Delivery :=
  map (fun r => mkDelivery r ev payload) (broadcast a [] []).

(** A handler answers the new adapter and the deliveries, or [None] when it
    throws (reading [roomId] of [null] or [undefined], or converting to a
    string a value that has no conversion). *)
Definition Outcome := option (Adapter * list Delivery).

Definition user_id (sock : SocketId) : JsVal := JObj [("userId", JStr sock)].

(** [socket.join(roomId)], the log line [`User joined room: ${roomId}`],
    whose conversion of [roomId] can throw, then the notice.  Nothing in
    the server catches the throw: the listener ends there, after the
    socket has joined and before any notice is sent. *)
Definition on_join_room (sock : SocketId) (roomId : JsVal) (a : Adapter) : Outcome :=
  let a' := join a sock roomId in
  if to_string_ok roomId
  then Some (a', socket_to_emit a' sock roomId "user-joined" [user_id sock])
  else None.

(** The handlers that forward [data] as they received it. *)
Definition forward (ev : string) (sock : SocketId) (data : JsVal) (a : Adapter) : Outcome :=
  match prop data "roomId" with
  | None => None
  | Some room => Some (a, socket_to_emit a sock room ev [data])
  end.

Definition on_start_draw := forward "start-draw".
Definition on_drawing := forward "drawing".
Definition on_end_draw := forward "end-draw".

Definition on_cursor_move (sock : SocketId) (data : JsVal) (a : Adapter) : Outcome :=
  match prop data "roomId" with
  | None => None
  | Some room =>
      Some (a, socket_to_emit a sock room "cursor-move"
                 [JObj [("userId", JStr sock); ("x", get data "x");
                        ("y", get data "y"); ("color", get data "color")]])
  end.

Definition on_start_shape := forward "start-shape".
Definition on_drawing_shape := forward "drawing-shape".
Definition on_end_shape := forward "end-shape".

Definition on_clear_canvas (sock : SocketId) (data : JsVal) (a : Adapter) : Outcome :=
  match prop data "roomId" with
  | None => None
  | Some room => Some (a, socket_to_emit a sock room "clear-canvas" [])
  end.

Definition on_clear (sock : SocketId) (roomId : JsVal) (a : Adapter) : Outcome :=
  Some (a, socket_to_emit a sock roomId "clear" [roomId]).

Definition on_draw_text := forward "draw-text".

Definition on_undo (sock : SocketId) (data : JsVal) (a : Adapter) : Outcome :=
  match prop data "roomId" with
  | None => None
  | Some room => Some (a, socket_to_emit a sock room "undo" [user_id sock])
  end.

Definition on_redo (sock : SocketId) (data : JsVal) (a : Adapter) : Outcome :=
  match prop data "roomId" with
  | None => None
  | Some room => Some (a, socket_to_emit a sock room "redo" [user_id sock])
  end.

(** The socket has left every room by the time its "disconnect" listener
    runs. *)
Definition on_disconnect (sock : SocketId) (a : Adapter) : Outcome :=
  let a' := leave_all a sock in
  Some (a', io_emit a' "user-left" [user_id sock]).

(** [io.on("connection", ...)]: the socket enters the room of its own id. *)
Definition on_connection (sock : SocketId) (a : Adapter) : Adapter :=
  add_member a sock (JStr sock).

(** Dispatch of a named client event with its first argument. *)
Definition handle (ev : string) (sock : SocketId) (data : JsVal) (a : Adapter) : Outcome :=
  if String.eqb ev "join-room" then on_join_room sock data a
  else if String.eqb ev "start-draw" then on_start_draw sock data a
  else if String.eqb ev "drawing" then on_drawing sock data a
  else if String.eqb ev "end-draw" then on_end_draw sock data a
  else if String.eqb ev "cursor-move" then on_cursor_move sock data a
  else if String.eqb ev "start-shape" then on_start_shape sock data a
  else if String.eqb ev "drawing-shape" then on_drawing_shape sock data a
  else if String.eqb ev "end-shape" then on_end_shape sock data a
  else if String.eqb ev "clear-canvas" then on_clear_canvas sock data a
  else if String.eqb ev "clear" then on_clear sock data a
  else if String.eqb ev "draw-text" then on_draw_text sock data a
  else if String.eqb ev "undo" then on_undo sock data a
  else if String.eqb ev "redo" then on_redo sock data a
  else Some (a, []).

(** The drawing operations of the protocol table. *)
Definition drawing_events : list string :=
  ["start-draw"; "drawing"; "end-draw"; "start-shape"; "drawing-shape";
   "end-shape"; "clear"; "clear-canvas"; "draw-text"].

(** Those among them whose listener passes its argument on to [emit]. *)
Definition forwarded_events : list string :=
  ["start-draw"; "drawing"; "end-draw"; "start-shape"; "drawing-shape";
   "end-shape"; "clear"; "draw-text"].

Definition connected (a : Adapter) (sock : SocketId) : Prop :=
  In (JStr sock, sock) a.

(** The server's life: connections, messages of connected sockets,
    disconnections. *)
Inductive step : Adapter -> Adapter -> Prop :=
| step_connect a sock :
    step a (on_connection sock a)
| step_message a sock ev data a' ds :
    connected a sock ->
    handle ev sock data a = Some (a', ds) ->
    step a a'
| step_disconnect a sock a' ds :
    on_disconnect sock a = Some (a', ds) ->
    step a a'.

Inductive reachable : Adapter -> Prop :=
| reach_init : reachable []
| reach_step a a' : reachable a -> step a a' -> reachable a'.

(** Every socket with a membership is in the room of its own id. *)
Definition own_room (a : Adapter) : Prop :=
  forall room sock, In (room, sock) a -> In (JStr sock, sock) a.

End Server.

(* ===================================================================== *)
(** ** The raster surface and its 2D context *)
(* ===================================================================== *)

Module Canvas.

(** Device pixels that are not transparent black, with their RGBA value. *)
Definition Pixel := Z.
Abbreviation Bitmap := (gmap (Z * Z) Pixel).

(** A raster capture: what [toDataURL] encodes, what an [Image] element
    decodes, what [getImageData] reads. *)
Record Image := mkImage {
  iwidth : Z;
  iheight : Z;
  ipixels : Bitmap
}.

(** Path segments.  The circle's radius and the arrow head's barbs are kept
    as the integers the source computes them from:
    [ArcAround cx cy dx dy] is [arc(cx, cy, sqrt(dx^2 + dy^2), 0, 2 * PI)],
    [BarbTo tx ty fx fy len left] is the [lineTo] of [drawArrow] towards the
    barb at angle [atan2(ty - fy, tx - fx) -/+ PI / 6]. *)
Inductive PathCmd : Type :=
| MoveTo (x y : JsVal)
| LineTo (x y : JsVal)
| ArcAround (cx cy dx dy : Z)
| BarbTo (tx ty fx fy len : Z) (left : bool)
| ClosePath.

(** [`${v}px Inter, sans-serif`] is kept as [PxInter v]. *)
Inductive Font : Type :=
| DefaultFont
| PxInter (px : JsVal).

Record Ctx := mkCtx {
  path : list PathCmd;
  strokeStyle : JsVal;
  lineWidth : JsVal;
  fillStyle : JsVal;
  font : Font;
  lineCap : string;
  lineJoin : string;
  scale : Z
}.

Definition default_ctx : Ctx :=
  mkCtx [] (JStr "#000000") (JNum 1) (JStr "#000000") DefaultFont "butt" "miter" 1.

(** Attribute assignments.  For [strokeStyle], [fillStyle], [lineWidth] and
    [font] they are the assignments of a value the context accepts
    ([accepts_colour], [accepts_lineWidth], [accepts_font] below): a
    browser's context keeps the previous value when given any other. *)
Definition set_path p (c : Ctx) : Ctx :=
  mkCtx p (strokeStyle c) (lineWidth c) (fillStyle c) (font c) (lineCap c) (lineJoin c) (scale c).
Definition set_strokeStyle v (c : Ctx) : Ctx :=
  mkCtx (path c) v (lineWidth c) (fillStyle c) (font c) (lineCap c) (lineJoin c) (scale c).
Definition set_lineWidth v (c : Ctx) : Ctx :=
  mkCtx (path c) (strokeStyle c) v (fillStyle c) (font c) (lineCap c) (lineJoin c) (scale c).
Definition set_fillStyle v (c : Ctx) : Ctx :=
  mkCtx (path c) (strokeStyle c) (lineWidth c) v (font c) (lineCap c) (lineJoin c) (scale c).
Definition set_font f (c : Ctx) : Ctx :=
  mkCtx (path c) (strokeStyle c) (lineWidth c) (fillStyle c) f (lineCap c) (lineJoin c) (scale c).
Definition set_lineCap s (c : Ctx) : Ctx :=
  mkCtx (path c) (strokeStyle c) (lineWidth c) (fillStyle c) (font c) s (lineJoin c) (scale c).
Definition set_lineJoin s (c : Ctx) : Ctx :=
  mkCtx (path c) (strokeStyle c) (lineWidth c) (fillStyle c) (font c) (lineCap c) s (scale c).
Definition set_scale k (c : Ctx) : Ctx :=
  mkCtx (path c) (strokeStyle c) (lineWidth c) (fillStyle c) (font c) (lineCap c) (lineJoin c) k.

(** Values a context accepts.  A colour in the hexadecimal notation
    ([#rgb], [#rgba], [#rrggbb], [#rrggbbaa]), which is what the palette and
    the colour input of the toolbar give, is accepted; so are a positive
    line width and a font of a non-negative pixel size.  Other CSS colours
    exist; these are the ones the statements below rely on. *)
Definition hex_digit (a : ascii) : bool :=
  let n := nat_of_ascii a in
  ((Nat.leb 48 n && Nat.leb n 57) || (Nat.leb 65 n && Nat.leb n 70)
   || (Nat.leb 97 n && Nat.leb n 102))%bool.

Definition hex_colour (s : string) : bool :=
  match s with
  | String "#" r =>
      let k := String.length r in
      (forallb hex_digit (list_ascii_of_string r)
       && (Nat.eqb k 3 || Nat.eqb k 4 || Nat.eqb k 6 || Nat.eqb k 8))%bool
  | _ => false
  end.

Definition accepts_colour (v : JsVal) : bool :=
  match v with JStr s => hex_colour s | _ => false end.

Definition accepts_lineWidth (v : JsVal) : bool :=
  match v with JNum n => 0 <? n | _ => false end.

Definition accepts_font (f : Font) : bool :=
  match f with
  | DefaultFont => true
  | PxInter (JNum n) => 0 <=? n
  | PxInter _ => false
  end.

(** Coordinates and texts that a context call takes as they are. *)
Definition is_number (v : JsVal) : bool :=
  match v with JNum _ => true | _ => false end.

Definition is_string (v : JsVal) : bool :=
  match v with JStr _ => true | _ => false end.

(** What the context asks the rasteriser to draw. *)
Inductive DrawOp : Type :=
| Stroke
| StrokeRect (x y w h : Z)
| FillText (text x y : JsVal)
| DrawImage (img : Image) (x y : Z).

(** The canvas element with its bitmap and its one 2D context. *)
Record Canvas := mkCanvas {
  width : Z;
  height : Z;
  bitmap : Bitmap;
  ctx : Ctx
}.

Definition set_bitmap b (c : Canvas) : Canvas := mkCanvas (width c) (height c) b (ctx c).
Definition set_ctx x (c : Canvas) : Canvas := mkCanvas (width c) (height c) (bitmap c) x.
Definition on_ctx (f : Ctx -> Ctx) (c : Canvas) : Canvas := set_ctx (f (ctx c)) c.

(** A canvas element as the document creates it. *)
Definition new_canvas : Canvas := mkCanvas 300 150 ∅ default_ctx.

(** Assigning [canvas.width] or [canvas.height] blanks the bitmap and
    resets the context. *)
Definition assign_width (w : Z) (c : Canvas) : Canvas := mkCanvas w (height c) ∅ default_ctx.
Definition assign_height (h : Z) (c : Canvas) : Canvas := mkCanvas (width c) h ∅ default_ctx.

Definition toDataURL (c : Canvas) : Image := mkImage (width c) (height c) (bitmap c).

Definition beginPath : Canvas -> Canvas := on_ctx (set_path []).
Definition moveTo (x y : JsVal) : Canvas -> Canvas :=
  on_ctx (fun c => set_path (path c ++ [MoveTo x y]) c).
Definition lineTo (x y : JsVal) : Canvas -> Canvas :=
  on_ctx (fun c => set_path (path c ++ [LineTo x y]) c).
Definition arcAround (cx cy dx dy : Z) : Canvas -> Canvas :=
  on_ctx (fun c => set_path (path c ++ [ArcAround cx cy dx dy]) c).
Definition barbTo (tx ty fx fy len : Z) (left : bool) : Canvas -> Canvas :=
  on_ctx (fun c => set_path (path c ++ [BarbTo tx ty fx fy len left]) c).
Definition closePath : Canvas -> Canvas :=
  on_ctx (fun c => set_path (path c ++ [ClosePath]) c).

(** Whether device pixel [p] lies in the rectangle [(x, y, w, h)] of user
    space under the uniform scale [k]. *)
Definition inside (k x y w h : Z) (p : Z * Z) : bool :=
  (x * k <=? fst p) && (fst p <? (x + w) * k) &&
  (y * k <=? snd p) && (snd p <? (y + h) * k).

(** [ctx.clearRect(x, y, w, h)]: the covered pixels become transparent. *)
Definition clearRect (x y w h : Z) (c : Canvas) : Canvas :=
  set_bitmap
    (filter (fun kv => inside (scale (ctx c)) x y w h (fst kv) = false) (bitmap c)) c.

(** [ctx.putImageData(src.getImageData(0, 0, w, h), 0, 0)]: the pixels of the
    rectangle are replaced by the source's, whatever the transform. *)
Definition putImageData (src : Bitmap) (w h : Z) (c : Canvas) : Canvas :=
  set_bitmap
    (filter (fun kv => inside 1 0 0 w h (fst kv) = true) src ∪
     filter (fun kv => inside 1 0 0 w h (fst kv) = false) (bitmap c)) c.

Section Rasteriser.

(** The browser's rasteriser: the bitmap after a drawing operation under the
    context's current attributes. *)
Variable paint : DrawOp -> Ctx -> Bitmap -> Bitmap.

Definition draw (op : DrawOp) (c : Canvas) : Canvas :=
  set_bitmap (paint op (ctx c) (bitmap c)) c.

Definition stroke : Canvas -> Canvas := draw Stroke.
Definition strokeRect (x y w h : Z) : Canvas -> Canvas := draw (StrokeRect x y w h).
Definition fillText (text x y : JsVal) : Canvas -> Canvas := draw (FillText text x y).
Definition drawImage (img : Image) (x y : Z) : Canvas -> Canvas := draw (DrawImage img x y).

End Rasteriser.

End Canvas.

(* ===================================================================== *)
(** ** The drawing client ([client/src/App.jsx]) *)
(* ===================================================================== *)

Module Client.
Import Canvas.

Inductive Tool : Type := BRUSH | ERASER | TEXT | LINE | RECTANGLE | CIRCLE | ARROW.

(** [TOOLS] *)
Definition tool_name (t : Tool) : string :=
  match t with
  | BRUSH => "brush" | ERASER => "eraser" | TEXT => "text" | LINE => "line"
  | RECTANGLE => "rectangle" | CIRCLE => "circle" | ARROW => "arrow"
  end.

Definition tool_eqb (a b : Tool) : bool := String.eqb (tool_name a) (tool_name b).

(** [[TOOLS.LINE, TOOLS.RECTANGLE, TOOLS.CIRCLE, TOOLS.ARROW].includes(tool)] *)
Definition is_shape (t : Tool) : bool :=
  match t with
  | LINE | RECTANGLE | CIRCLE | ARROW => true
  | _ => false
  end.

(** The component's React state. *)
Record Ui := mkUi {
  roomId : string;
  joined : bool;
  color : string;
  size : Z;
  tool : Tool;
  canUndo : bool;
  textInput : string;
  textPosition : Z * Z;
  isPlacingText : bool;
  showTextMarker : bool
}.

(** The component's refs, the image loads in flight, the events handed to
    [socket.emit], oldest first, and the socket: whether it is connected,
    and the room ids held by the [connectHandler] listeners that wait for
    its "connect", in the order they were registered. *)
Record State := mkState {
  ui : Ui;
  canvasRef : option Canvas;
  ctxRef : bool;
  historyRef : list Image;
  isDrawingRef : bool;
  startPosRef : Z * Z;
  tempCanvasRef : option Canvas;
  loading : list Image;
  emitted : list (string * JsVal);
  connected : bool;
  connectHandlers : list string
}.

Definition setRoomId v (u : Ui) : Ui :=
  mkUi v (joined u) (color u) (size u) (tool u) (canUndo u) (textInput u)
       (textPosition u) (isPlacingText u) (showTextMarker u).
Definition setJoined v (u : Ui) : Ui :=
  mkUi (roomId u) v (color u) (size u) (tool u) (canUndo u) (textInput u)
       (textPosition u) (isPlacingText u) (showTextMarker u).
Definition setColor v (u : Ui) : Ui :=
  mkUi (roomId u) (joined u) v (size u) (tool u) (canUndo u) (textInput u)
       (textPosition u) (isPlacingText u) (showTextMarker u).
Definition setSize v (u : Ui) : Ui :=
  mkUi (roomId u) (joined u) (color u) v (tool u) (canUndo u) (textInput u)
       (textPosition u) (isPlacingText u) (showTextMarker u).
Definition setTool v (u : Ui) : Ui :=
  mkUi (roomId u) (joined u) (color u) (size u) v (canUndo u) (textInput u)
       (textPosition u) (isPlacingText u) (showTextMarker u).
Definition setCanUndo v (u : Ui) : Ui :=
  mkUi (roomId u) (joined u) (color u) (size u) (tool u) v (textInput u)
       (textPosition u) (isPlacingText u) (showTextMarker u).
Definition setTextInput v (u : Ui) : Ui :=
  mkUi (roomId u) (joined u) (color u) (size u) (tool u) (canUndo u) v
       (textPosition u) (isPlacingText u) (showTextMarker u).
Definition setTextPosition v (u : Ui) : Ui :=
  mkUi (roomId u) (joined u) (color u) (size u) (tool u) (canUndo u) (textInput u)
       v (isPlacingText u) (showTextMarker u).
Definition setIsPlacingText v (u : Ui) : Ui :=
  mkUi (roomId u) (joined u) (color u) (size u) (tool u) (canUndo u) (textInput u)
       (textPosition u) v (showTextMarker u).
Definition setShowTextMarker v (u : Ui) : Ui :=
  mkUi (roomId u) (joined u) (color u) (size u) (tool u) (canUndo u) (textInput u)
       (textPosition u) (isPlacingText u) v.

Definition on_ui (f : Ui -> Ui) (st : State) : State :=
  mkState (f (ui st)) (canvasRef st) (ctxRef st) (historyRef st) (isDrawingRef st)
          (startPosRef st) (tempCanvasRef st) (loading st) (emitted st)
          (connected st) (connectHandlers st).
Definition set_canvasRef v (st : State) : State :=
  mkState (ui st) v (ctxRef st) (historyRef st) (isDrawingRef st)
          (startPosRef st) (tempCanvasRef st) (loading st) (emitted st)
          (connected st) (connectHandlers st).
Definition set_ctxRef v (st : State) : State :=
  mkState (ui st) (canvasRef st) v (historyRef st) (isDrawingRef st)
          (startPosRef st) (tempCanvasRef st) (loading st) (emitted st)
          (connected st) (connectHandlers st).
Definition set_historyRef v (st : State) : State :=
  mkState (ui st) (canvasRef st) (ctxRef st) v (isDrawingRef st)
          (startPosRef st) (tempCanvasRef st) (loading st) (emitted st)
          (connected st) (connectHandlers st).
Definition set_isDrawingRef v (st : State) : State :=
  mkState (ui st) (canvasRef st) (ctxRef st) (historyRef st) v
          (startPosRef st) (tempCanvasRef st) (loading st) (emitted st)
          (connected st) (connectHandlers st).
Definition set_startPosRef v (st : State) : State :=
  mkState (ui st) (canvasRef st) (ctxRef st) (historyRef st) (isDrawingRef st)
          v (tempCanvasRef st) (loading st) (emitted st)
          (connected st) (connectHandlers st).
Definition set_tempCanvasRef v (st : State) : State :=
  mkState (ui st) (canvasRef st) (ctxRef st) (historyRef st) (isDrawingRef st)
          (startPosRef st) v (loading st) (emitted st)
          (connected st) (connectHandlers st).
Definition set_loading v (st : State) : State :=
  mkState (ui st) (canvasRef st) (ctxRef st) (historyRef st) (isDrawingRef st)
          (startPosRef st) (tempCanvasRef st) v (emitted st)
          (connected st) (connectHandlers st).
Definition set_emitted v (st : State) : State :=
  mkState (ui st) (canvasRef st) (ctxRef st) (historyRef st) (isDrawingRef st)
          (startPosRef st) (tempCanvasRef st) (loading st) v
          (connected st) (connectHandlers st).

Definition set_connected v (st : State) : State :=
  mkState (ui st) (canvasRef st) (ctxRef st) (historyRef st) (isDrawingRef st)
          (startPosRef st) (tempCanvasRef st) (loading st) (emitted st)
          v (connectHandlers st).
Definition set_connectHandlers v (st : State) : State :=
  mkState (ui st) (canvasRef st) (ctxRef st) (historyRef st) (isDrawingRef st)
          (startPosRef st) (tempCanvasRef st) (loading st) (emitted st)
          (connected st) v.

(** The canvas element, once mounted, is one object: drawing on it is an
    update in place. *)
Definition on_canvas (f : Canvas -> Canvas) (st : State) : State :=
  set_canvasRef (f <$> canvasRef st) st.

(** [currentSocket.emit(ev, payload)] *)
Definition emit (ev : string) (payload : JsVal) (st : State) : State :=
  set_emitted (emitted st ++ [(ev, payload)]) st.

(** [{ roomId, x, y, color, size, tool }], the payload of "start-draw" and
    "drawing". *)
Definition stroke_payload (room : string) (x y : Z) (col : string) (sz : Z)
    (t : Tool) : JsVal :=
  JObj [("roomId", JStr room); ("x", JNum x); ("y", JNum y);
        ("color", JStr col); ("size", JNum sz); ("tool", JStr (tool_name t))].

(** [{ roomId, text, x, y, color, fontSize }], the payload of "draw-text". *)
Definition text_payload (room text : string) (x y : Z) (col : string)
    (fontSize : Z) : JsVal :=
  JObj [("roomId", JStr room); ("text", JStr text); ("x", JNum x); ("y", JNum y);
        ("color", JStr col); ("fontSize", JNum fontSize)].

(** The state of a freshly mounted component: nothing joined, no canvas
    element in the document yet, the socket created without connecting. *)
Definition initial : State :=
  mkState (mkUi "" false "#1e293b" 4 BRUSH false "" (0, 0) false false)
          None false [] false (0, 0) None [] [] false [].

(** What the handlers read from the window and the layout. *)
Record Env := mkEnv {
  clientWidth : Z;
  clientHeight : Z;
  devicePixelRatio : Z
}.

(** [window.devicePixelRatio || 1] *)
Definition dpr (env : Env) : Z :=
  if devicePixelRatio env =? 0 then 1 else devicePixelRatio env.

(** A pointer event together with the canvas's bounding rectangle. *)
Record PointerEvent := mkPointerEvent {
  button : Z;
  clientX : Z;
  clientY : Z;
  rectLeft : Z;
  rectTop : Z
}.

(** [String.prototype.trim].  A string is kept as the UTF-8 bytes of the
    JavaScript string.  [trim] strips, at both ends, the code points of
    WhiteSpace and LineTerminator: U+0009 to U+000D, U+0020, U+00A0, U+1680,
    U+2000 to U+200A, U+2028, U+2029, U+202F, U+205F, U+3000 and U+FEFF.
    [space1], [space2] and [space3] recognise their encodings of one, two
    and three bytes. *)
Definition space1 (a : ascii) : bool :=
  let x := nat_of_ascii a in
  (Nat.eqb x 32 || (Nat.leb 9 x && Nat.leb x 13))%bool.

Definition space2 (a b : ascii) : bool :=
  (Nat.eqb (nat_of_ascii a) 194 && Nat.eqb (nat_of_ascii b) 160)%bool.

Definition space3 (a b c : ascii) : bool :=
  let x := nat_of_ascii a in
  let y := nat_of_ascii b in
  let z := nat_of_ascii c in
  (Nat.eqb x 225 && Nat.eqb y 154 && Nat.eqb z 128
   || Nat.eqb x 226 && Nat.eqb y 128
      && ((Nat.leb 128 z && Nat.leb z 138) || Nat.eqb z 168 || Nat.eqb z 169
          || Nat.eqb z 175)
   || Nat.eqb x 226 && Nat.eqb y 129 && Nat.eqb z 159
   || Nat.eqb x 227 && Nat.eqb y 128 && Nat.eqb z 128
   || Nat.eqb x 239 && Nat.eqb y 187 && Nat.eqb z 191)%bool.

(** Drop the white space at the head of [l]; with [back], [l] is a string
    read from its end, so the bytes of a code point come in reverse. *)
Fixpoint strip (back : bool) (l : list ascii) : list ascii :=
  match l with
  | a :: r1 =>
      if space1 a then strip back r1
      else
        match r1 with
        | b :: r2 =>
            if (if back then space2 b a else space2 a b) then strip back r2
            else
              match r2 with
              | c :: r3 =>
                  if (if back then space3 c b a else space3 a b c)
                  then strip back r3
                  else l
              | [] => l
              end
        | [] => l
        end
  | [] => []
  end.

Definition trim_start (l : list ascii) : list ascii := strip false l.

Definition trim_end (l : list ascii) : list ascii := rev (strip true (rev l)).

Definition trim (s : string) : string :=
  string_of_list_ascii (trim_end (trim_start (list_ascii_of_string s))).

Definition nonempty (s : string) : bool := negb (String.eqb s "").

(** Lines 335-338 of [saveCanvas]: [push], then [shift] beyond 30 entries. *)
Definition push_bounded (dataUrl : Image) (h : list Image) : list Image :=
  let h' := h ++ [dataUrl] in
  if Nat.ltb 30 (length h') then tail h' else h'.

(** Several pushes in a row, in the order of [imgs]. *)
Definition pushes (imgs h : list Image) : list Image :=
  fold_left (fun acc i => push_bounded i acc) imgs h.

(** [toDataURL] throws only on a canvas tainted by cross-origin content,
    which this program never draws, so the [catch] branch is never taken. *)
Definition saveCanvas (st : State) : State :=
  match canvasRef st with
  | None => st
  | Some canvas =>
      let h := push_bounded (toDataURL canvas) (historyRef st) in
      on_ui (setCanUndo (Nat.ltb 1 (length h))) (set_historyRef h st)
  end.

(** [restoreCanvas] only starts the image load; the drawing happens in
    [img.onload], see [image_onload]. *)
Definition restoreCanvas (dataUrl : Image) (st : State) : State :=
  match canvasRef st, ctxRef st with
  | Some _, true => set_loading (loading st ++ [dataUrl]) st
  | _, _ => st
  end.

Definition handleUndo (st : State) : State :=
  if Nat.ltb 1 (length (historyRef st)) then
    let h := removelast (historyRef st) in
    let st1 := set_historyRef h st in
    let st2 := match last h with
               | Some prev => restoreCanvas prev st1
               | None => st1
               end in
    on_ui (setCanUndo (Nat.ltb 1 (length h))) st2
  else st.

(** The two bounds on the history: at least one entry ([lo]), at most 30. *)
Definition history_ok (lo : bool) (st : State) : Prop :=
  if lo then (1 <= length (historyRef st))%nat
  else (length (historyRef st) <= 30)%nat.

(** [saveCanvas] at a moment when the surface is [canvas]. *)
Definition snapshot (st : State) (canvas : Canvas) : State :=
  saveCanvas (set_canvasRef (Some canvas) st).

(** [n] presses of undo in a row. *)
Definition undo_times (n : nat) (st : State) : State := Nat.iter n handleUndo st.

Definition resizeCanvas (env : Env) (st : State) : State :=
  match canvasRef st with
  | None => st
  | Some canvas =>
      let canvas := assign_width (clientWidth env * dpr env) canvas in
      let canvas := assign_height (clientHeight env * dpr env) canvas in
      let canvas := on_ctx (set_scale (scale (ctx canvas) * dpr env)) canvas in
      let canvas := on_ctx (set_lineCap "round") canvas in
      let canvas := on_ctx (set_lineJoin "round") canvas in
      let canvas := clearRect 0 0 (width canvas) (height canvas) canvas in
      saveCanvas
        (set_historyRef [] (set_ctxRef true (set_canvasRef (Some canvas) st)))
  end.

(** A stroke message whose values the context calls of [handleRemoteStart]
    and [handleRemoteDrawing] accept: numeric coordinates, a colour that is
    hexadecimal or missing and a size that is positive, zero or missing. *)
Definition stroke_message_ok (data : JsVal) : bool :=
  is_number (get data "x") && is_number (get data "y")
  && accepts_colour (or_else (get data "color") (JStr "#000"))
  && accepts_lineWidth (or_else (get data "size") (JNum 3)).

(** A text message whose values the context calls of [handleRemoteText]
    accept. *)
Definition text_message_ok (data : JsVal) : bool :=
  is_string (get data "text")
  && is_number (get data "x") && is_number (get data "y")
  && accepts_colour (get data "color")
  && accepts_font (PxInter (get data "fontSize")).

Section Handlers.

Variable paint : DrawOp -> Ctx -> Bitmap -> Bitmap.

(** [img.onload] of [restoreCanvas] for the [n]-th image in flight. *)
Definition image_onload (n : nat) (st : State) : State :=
  match loading st !! n with
  | None => st
  | Some img =>
      on_canvas
        (fun canvas =>
           drawImage paint img 0 0
             (clearRect 0 0 (width canvas) (height canvas) canvas))
        (set_loading (take n (loading st) ++ drop (S n) (loading st)) st)
  end.

(** [tool === TOOLS.ERASER ? "#ffffff" : color] *)
Definition stroke_color (u : Ui) : string :=
  if tool_eqb (tool u) ERASER then "#ffffff" else color u.

(** [tool === TOOLS.ERASER ? size * 3 : size] *)
Definition stroke_size (u : Ui) : Z :=
  if tool_eqb (tool u) ERASER then size u * 3 else size u.

(** The temp canvas of the shape preview: same size, the canvas drawn onto
    it. *)
Definition preview_copy (canvas : Canvas) : Canvas :=
  drawImage paint (toDataURL canvas) 0 0
    (assign_height (height canvas) (assign_width (width canvas) new_canvas)).

Definition handlePointerDown (e : PointerEvent) (st : State) : State :=
  if negb (button e =? 0) then st
  else
    let x := clientX e - rectLeft e in
    let y := clientY e - rectTop e in
    let u := ui st in
    if tool_eqb (tool u) TEXT then
      on_ui (fun u => setShowTextMarker true
                        (setIsPlacingText true (setTextPosition (x, y) u))) st
    else
      let st := set_startPosRef (x, y) (set_isDrawingRef true st) in
      let st :=
        on_canvas
          (fun canvas =>
             on_ctx (set_lineWidth (JNum (stroke_size u)))
               (on_ctx (set_strokeStyle (JStr (stroke_color u)))
                  (moveTo (JNum x) (JNum y) (beginPath canvas)))) st in
      let st :=
        if is_shape (tool u)
        then set_tempCanvasRef (preview_copy <$> canvasRef st) st
        else st in
      emit "start-draw"
        (stroke_payload (roomId u) x y (stroke_color u) (stroke_size u) (tool u)) st.

Definition drawArrow (fromX fromY toX toY lineWidth : Z) (canvas : Canvas) : Canvas :=
  let headLength := lineWidth * 4 in
  let canvas :=
    stroke paint
      (lineTo (JNum toX) (JNum toY)
         (moveTo (JNum fromX) (JNum fromY) (beginPath canvas))) in
  stroke paint
    (barbTo toX toY fromX fromY headLength false
       (moveTo (JNum toX) (JNum toY)
          (barbTo toX toY fromX fromY headLength true
             (moveTo (JNum toX) (JNum toY) (beginPath canvas))))).

(** The shape branch of [handlePointerMove]. *)
Definition preview_shape (u : Ui) (temp : option Canvas) (startX startY x y : Z)
    (canvas : Canvas) : Canvas :=
  let canvas :=
    match temp with
    | Some t => putImageData (bitmap t) (width canvas) (height canvas) canvas
    | None => canvas
    end in
  let canvas := on_ctx (set_strokeStyle (JStr (color u))) canvas in
  let canvas := on_ctx (set_lineWidth (JNum (size u))) canvas in
  match tool u with
  | LINE =>
      stroke paint
        (lineTo (JNum x) (JNum y)
           (moveTo (JNum startX) (JNum startY) (beginPath canvas)))
  | RECTANGLE => strokeRect paint startX startY (x - startX) (y - startY) canvas
  | CIRCLE =>
      stroke paint
        (arcAround startX startY (x - startX) (y - startY) (beginPath canvas))
  | ARROW => drawArrow startX startY x y (size u) canvas
  | _ => canvas
  end.

(** The freehand branch of [handlePointerMove]. *)
Definition draw_point (u : Ui) (x y : Z) (canvas : Canvas) : Canvas :=
  stroke paint
    (on_ctx (set_lineWidth (JNum (stroke_size u)))
       (on_ctx (set_strokeStyle (JStr (stroke_color u)))
          (lineTo (JNum x) (JNum y) canvas))).

Definition handlePointerMove (e : PointerEvent) (st : State) : State :=
  if negb (isDrawingRef st) then st
  else
    let x := clientX e - rectLeft e in
    let y := clientY e - rectTop e in
    let startX := fst (startPosRef st) in
    let startY := snd (startPosRef st) in
    let u := ui st in
    let st :=
      if is_shape (tool u)
      then on_canvas (preview_shape u (tempCanvasRef st) startX startY x y) st
      else on_canvas (draw_point u x y) st in
    emit "drawing"
      (stroke_payload (roomId u) x y (color u) (size u) (tool u)) st.

Definition stopDrawing (st : State) : State :=
  if negb (isDrawingRef st) then st
  else
    let st := set_isDrawingRef false st in
    let st := on_canvas closePath st in
    let st :=
      emit "end-draw"
        (JObj [("roomId", JStr (roomId (ui st)));
               ("tool", JStr (tool_name (tool (ui st))))]) st in
    saveCanvas st.

(** [!data || data.roomId !== roomId] *)
Definition foreign (data : JsVal) (st : State) : bool :=
  negb (truthy data) || negb (strict_eq_str (get data "roomId") (roomId (ui st))).

(** The remote appliers.  Their context calls are written for the values a
    context accepts ([stroke_message_ok], [text_message_ok]); given another
    value, a browser's context keeps the attribute it had, or its call
    throws on an object that has no conversion. *)
Definition handleRemoteStart (data : JsVal) (st : State) : State :=
  if foreign data st then st
  else
    on_canvas
      (fun canvas =>
         on_ctx (set_lineWidth (or_else (get data "size") (JNum 3)))
           (on_ctx (set_strokeStyle (or_else (get data "color") (JStr "#000")))
              (moveTo (get data "x") (get data "y") (beginPath canvas)))) st.

Definition handleRemoteDrawing (data : JsVal) (st : State) : State :=
  if foreign data st then st
  else
    on_canvas
      (fun canvas =>
         stroke paint
           (lineTo (get data "x") (get data "y")
              (on_ctx (set_lineWidth (or_else (get data "size") (JNum 3)))
                 (on_ctx (set_strokeStyle (or_else (get data "color") (JStr "#000")))
                    canvas)))) st.

Definition handleRemoteEnd (data : JsVal) (st : State) : State :=
  if foreign data st then st
  else on_canvas closePath st.

Definition handleRemoteText (data : JsVal) (st : State) : State :=
  if foreign data st then st
  else
    on_canvas
      (fun canvas =>
         fillText paint (get data "text") (get data "x") (get data "y")
           (on_ctx (set_fillStyle (get data "color"))
              (on_ctx (set_font (PxInter (get data "fontSize"))) canvas))) st.

(** [if (ctx) ctx.clearRect(0, 0, canvas.width, canvas.height)] *)
Definition clear_surface (st : State) : State :=
  if ctxRef st
  then on_canvas (fun canvas => clearRect 0 0 (width canvas) (height canvas) canvas) st
  else st.

Definition clearBoard (st : State) : State :=
  let st := saveCanvas st in
  let st := clear_surface st in
  let st :=
    on_ui (fun u => setTextInput "" (setIsPlacingText false (setShowTextMarker false u))) st in
  let st := emit "clear" (JStr (roomId (ui st))) st in
  saveCanvas st.

Definition onClear (room : JsVal) (st : State) : State :=
  if negb (strict_eq_str room (roomId (ui st))) then st
  else saveCanvas (clear_surface st).

(** [onKeyDown] of the text tool's input. *)
Definition textKeyDown (env : Env) (key : string) (st : State) : State :=
  let u := ui st in
  let x := fst (textPosition u) in
  let y := snd (textPosition u) in
  if String.eqb key "Enter" && nonempty (trim (textInput u))
     && negb (x =? 0) && negb (y =? 0)
  then
    match canvasRef st, ctxRef st with
    | Some _, true =>
        let d := dpr env in
        let st :=
          on_canvas
            (fun canvas =>
               fillText paint (JStr (textInput u)) (JNum (x * d)) (JNum (y * d))
                 (on_ctx (set_fillStyle (JStr (color u)))
                    (on_ctx (set_font (PxInter (JNum (size u * 4)))) canvas))) st in
        let st := saveCanvas st in
        let st :=
          emit "draw-text"
            (text_payload (roomId u) (textInput u) (x * d) (y * d) (color u)
               (size u * 4)) st in
        on_ui (fun u => setIsPlacingText false (setTextInput "" u)) st
    | _, _ => st
    end
  else st.

(** [setTool] followed by the effect that drops a pending text placement
    when the tool changed to one that is not the text tool. *)
Definition selectTool (t : Tool) (st : State) : State :=
  let changed := negb (tool_eqb (tool (ui st)) t) in
  let st := on_ui (setTool t) st in
  if changed && negb (tool_eqb t TEXT) && showTextMarker (ui st)
  then on_ui (fun u => setTextInput "" (setIsPlacingText false (setShowTextMarker false u))) st
  else st.

(** What [handleJoin] does once the socket is connected, with the room id
    [room] it read when it was called: the room is announced and the board
    is rendered, which mounts the canvas element; the drawing effect then
    stores the canvas's context in [ctxRef].  The [resizeCanvas] of the
    timer is a later [Resize]. *)
Definition join_now (room : string) (st : State) : State :=
  let st := emit "join-room" (JStr room) st in
  let st := on_ui (setJoined true) st in
  let st :=
    match canvasRef st with
    | None => set_canvasRef (Some new_canvas) st
    | Some _ => st
    end in
  set_ctxRef true st.

(** [handleJoin]: with the socket connected the room is joined at once;
    otherwise a [connectHandler] that holds the room id of this call is
    registered for the socket's "connect", and the socket is asked to
    connect. *)
Definition handleJoin (st : State) : State :=
  if negb (nonempty (roomId (ui st))) then st
  else if connected st then join_now (roomId (ui st)) st
  else set_connectHandlers (connectHandlers st ++ [roomId (ui st)]) st.

(** The socket's "connect": every waiting [connectHandler] runs, in the
    order of registration and with the room id it holds, and removes
    itself. *)
Definition onConnect (st : State) : State :=
  fold_left (fun s room => join_now room s) (connectHandlers st)
    (set_connectHandlers [] (set_connected true st)).

(** The socket's "disconnect". *)
Definition onDisconnect (st : State) : State := set_connected false st.

(** The room an incoming operation names: the bare payload of "clear", the
    [roomId] property of every other payload. *)
Definition carried_room (ev : string) (data : JsVal) : JsVal :=
  if String.eqb ev "clear" then data else get data "roomId".

(** The operations that the client applies when they come from the relay. *)
Definition applied_events : list string :=
  ["start-draw"; "drawing"; "end-draw"; "draw-text"; "clear"].

(** Everything that can happen to the component. *)
Inductive Event : Type :=
| PointerDown (e : PointerEvent)
| PointerMove (e : PointerEvent)
| PointerStop
| Receive (ev : string) (data : JsVal)
| Undo
| ClearBoard
| Resize (env : Env)
| TextKey (env : Env) (key : string)
| SelectTool (t : Tool)
| PickColor (c : string)
| PickSize (n : Z)
| TypeText (s : string)
| TypeRoom (s : string)
| FocusText
| Join
| ImageLoaded (n : nat)
| SocketConnect
| SocketDisconnect.

(** The listeners of the drawing effect exist only while [joined]; the
    "clear" listener and [resizeCanvas] are registered from the start; the
    join card, with the room input and the Join button, is rendered until
    [joined].  The
    toolbar's own gating (a disabled button, an input shown for one tool
    only) is not repeated in [step]: it only removes behaviours. *)
Definition receive (ev : string) (data : JsVal) (st : State) : State :=
  if String.eqb ev "clear" then onClear data st
  else if negb (joined (ui st)) then st
  else if String.eqb ev "start-draw" then handleRemoteStart data st
  else if String.eqb ev "drawing" then handleRemoteDrawing data st
  else if String.eqb ev "end-draw" then handleRemoteEnd data st
  else if String.eqb ev "draw-text" then handleRemoteText data st
  else st.

Definition step (ev : Event) (st : State) : State :=
  match ev with
  | PointerDown e => if joined (ui st) then handlePointerDown e st else st
  | PointerMove e => if joined (ui st) then handlePointerMove e st else st
  | PointerStop => if joined (ui st) then stopDrawing st else st
  | Receive name data => receive name data st
  | Undo => if joined (ui st) then handleUndo st else st
  | ClearBoard => if joined (ui st) then clearBoard st else st
  | Resize env => resizeCanvas env st
  | TextKey env key => if joined (ui st) then textKeyDown env key st else st
  | SelectTool t => selectTool t st
  | PickColor c => on_ui (setColor c) st
  | PickSize n => on_ui (setSize n) st
  | TypeText s => on_ui (setTextInput s) st
  | TypeRoom s => if joined (ui st) then st else on_ui (setRoomId s) st
  | FocusText => on_ui (setShowTextMarker true) st
  | Join => if joined (ui st) then st else handleJoin st
  | ImageLoaded n => image_onload n st
  | SocketConnect => onConnect st
  | SocketDisconnect => onDisconnect st
  end.

Definition run (evs : list Event) (st : State) : State :=
  fold_left (fun s ev => step ev s) evs st.

End Handlers.

End Client.

(* ===================================================================== *)
(** ** Concrete scenarios *)
(* ===================================================================== *)

Module Demo.
Import Canvas Client.

(** Two participants, A and B, connected and joined to room "demo1". *)
Definition two_in_room : Server.Adapter :=
  [(JStr "A", "A"); (JStr "B", "B"); (JStr "demo1", "A"); (JStr "demo1", "B")].

Definition room_payload : JsVal := JObj [("roomId", JStr "demo1")].

(** A rasteriser for the scenarios: a stroke marks the device pixel of the
    last point of the path, a text the pixel of its anchor. *)
Definition last_point (p : list PathCmd) : option (Z * Z) :=
  match last p with
  | Some (LineTo (JNum x) (JNum y)) => Some (x, y)
  | Some (MoveTo (JNum x) (JNum y)) => Some (x, y)
  | _ => None
  end.

Definition dot_paint (op : DrawOp) (c : Ctx) (b : Bitmap) : Bitmap :=
  match op with
  | Stroke =>
      match last_point (path c) with
      | Some (x, y) => <[(x * scale c, y * scale c) := 255]> b
      | None => b
      end
  | FillText _ (JNum x) (JNum y) => <[(x * scale c, y * scale c) := 255]> b
  | _ => b
  end.

Definition env1 : Env := mkEnv 800 600 1.

(** A client that typed "demo1", joined, and whose canvas was sized. *)
Definition joined_client : State :=
  run dot_paint [TypeRoom "demo1"; Join; SocketConnect; Resize env1] initial.

(** A client that typed "demo1" and has not pressed Join. *)
Definition typing_client : State := run dot_paint [TypeRoom "demo1"] initial.

(** The same client before its canvas was sized: mounted, nothing saved. *)
Definition mounted_client : State :=
  run dot_paint [TypeRoom "demo1"; Join; SocketConnect] initial.

(** A canvas that differs from a new one by its width. *)
Definition narrow_canvas : Canvas := assign_width 1 new_canvas.

(** The joined client with the eraser selected and the pointer pressed at
    (10, 10). *)
Definition erasing_client : State :=
  run dot_paint [SelectTool ERASER; PointerDown (mkPointerEvent 0 10 10 0 0)]
    joined_client.

(** A "drawing" message for room "demo1" that carries the size 0. *)
Definition zero_size_message : JsVal :=
  stroke_payload "demo1" 50 50 "#ef4444" 0 BRUSH.

(** A "drawing" message for another room. *)
Definition elsewhere_message : JsVal :=
  stroke_payload "other" 50 50 "#ef4444" 4 BRUSH.

(** The joined client with the text tool, a placement clicked at
    (120, 80) and "hello" typed. *)
Definition placing_client : State :=
  run dot_paint
    [SelectTool TEXT; PointerDown (mkPointerEvent 0 120 80 0 0); TypeText "hello"]
    joined_client.

Definition at_origin : PointerEvent := mkPointerEvent 0 10 10 0 0.
Definition further : PointerEvent := mkPointerEvent 0 50 50 0 0.

End Demo.

(* ===================================================================== *)
(** ** Keyboard shortcuts ([handleKeyDown]) *)
(* ===================================================================== *)

Module Shortcuts.
Import Canvas Client.

(** [String.prototype.toLowerCase] on ASCII letters. *)
Definition lower (c : ascii) : ascii :=
  let n := nat_of_ascii c in
  if (Nat.leb 65 n && Nat.leb n 90)%bool then ascii_of_nat (n + 32) else c.

Fixpoint toLowerCase (s : string) : string :=
  match s with
  | String c r => String (lower c) (toLowerCase r)
  | EmptyString => EmptyString
  end.

Definition KEYBOARD_SHORTCUTS : list (string * string) :=
  [("b", tool_name BRUSH); ("e", tool_name ERASER); ("t", tool_name TEXT);
   ("l", tool_name LINE); ("r", tool_name RECTANGLE); ("c", tool_name CIRCLE);
   ("a", tool_name ARROW); ("z", "undo"); ("s", "export")].

Fixpoint shortcut (key : string) (table : list (string * string)) : option string :=
  match table with
  | [] => None
  | (k, action) :: rest => if String.eqb k key then Some action else shortcut key rest
  end.

(** [Object.values(TOOLS).includes(action)], with the tool found. *)
Definition tool_named (action : string) : option Tool :=
  List.find (fun t => String.eqb (tool_name t) action)
    [BRUSH; ERASER; TEXT; LINE; RECTANGLE; CIRCLE; ARROW].

(** [handleExport] hands the PNG of the canvas to the browser as a download;
    nothing of the component changes. *)
Definition handleExport (st : State) : State := st.

(** The "keydown" listener of the window, present while [joined]; [tagName]
    is the tag of the element that has the focus. *)
Definition handleKeyDown (tagName key : string) (st : State) : State :=
  if (String.eqb tagName "INPUT" || String.eqb tagName "TEXTAREA")%bool then st
  else
    match shortcut (toLowerCase key) KEYBOARD_SHORTCUTS with
    | None => st
    | Some action =>
        match tool_named action with
        | Some t => selectTool t st
        | None =>
            if String.eqb action "undo" then handleUndo st
            else if String.eqb action "export" then handleExport st
            else st
        end
    end.

Definition shortcut_keys : list string := map fst KEYBOARD_SHORTCUTS.

End Shortcuts.

(* ===================================================================== *)
(** ** A sender, the relay and a receiver together *)
(* ===================================================================== *)

Module Session.
Import Canvas Client.

(** The listeners of [server.js] that read [data.roomId]. *)
Definition roomId_readers : list string :=
  ["start-draw"; "drawing"; "end-draw"; "cursor-move"; "start-shape";
   "drawing-shape"; "end-shape"; "clear-canvas"; "draw-text"; "undo"; "redo"].

(** The listeners that stamp the sender's id on what they relay. *)
Definition stamped_events : list string := ["cursor-move"; "undo"; "redo"].

(** The event names this client hands to [socket.emit]. *)
Definition client_events : list string :=
  ["join-room"; "start-draw"; "drawing"; "end-draw"; "clear"; "draw-text"].

(** The room an emitted message names: "join-room" and "clear" carry the
    bare room id, the others an object with [roomId]. *)
Definition named_room (m : string * JsVal) : JsVal :=
  if String.eqb (fst m) "join-room" then snd m else carried_room (fst m) (snd m).

(** The byte strings that are white space only: a sequence of encoded
    white-space code points. *)
Inductive Spaces : list ascii -> Prop :=
| spaces_nil : Spaces []
| spaces_1 a l : space1 a = true -> Spaces l -> Spaces (a :: l)
| spaces_2 a b l : space2 a b = true -> Spaces l -> Spaces (a :: b :: l)
| spaces_3 a b c l : space3 a b c = true -> Spaces l -> Spaces (a :: b :: c :: l).

Definition white_space_only (s : string) : Prop := Spaces (list_ascii_of_string s).

(** The no-break space U+00A0, in UTF-8. *)
Definition nbsp : string := String (ascii_of_nat 194) (String (ascii_of_nat 160) "").

(** A space followed by a no-break space. *)
Definition blank_text : string := " " ++ nbsp.

(** The Undo button is enabled exactly when the history has more than one
    entry. *)
Definition undo_button_ok (st : State) : Prop :=
  canUndo (ui st) = Nat.ltb 1 (length (historyRef st)).

(** Once joined, the canvas element and its context are there; the context
    is never there without the canvas. *)
Definition mounted (st : State) : Prop :=
  (joined (ui st) = true -> ctxRef st = true) /\
  (ctxRef st = true -> canvasRef st <> None).

Definition recipients (ds : list Server.Delivery) : list Server.SocketId :=
  map Server.recipient ds.

(** One stroke gesture: press, moves, release. *)
Definition gesture (e0 : PointerEvent) (es : list PointerEvent) : list Event :=
  PointerDown e0 :: map PointerMove es ++ [PointerStop].

Definition point_of (e : PointerEvent) : Z * Z :=
  (clientX e - rectLeft e, clientY e - rectTop e).

(** The "drawing" message of one pointer move. *)
Definition drawing_message (u : Ui) (e : PointerEvent) : string * JsVal :=
  ("drawing",
   stroke_payload (roomId u) (fst (point_of e)) (snd (point_of e))
     (color u) (size u) (tool u)).

(** The messages of one stroke gesture, as the handlers build them. *)
Definition gesture_messages (u : Ui) (e0 : PointerEvent) (es : list PointerEvent)
    : list (string * JsVal) :=
  ("start-draw",
   stroke_payload (roomId u) (fst (point_of e0)) (snd (point_of e0))
     (stroke_color u) (stroke_size u) (tool u))
  :: map (fun e => ("drawing",
                    stroke_payload (roomId u) (fst (point_of e)) (snd (point_of e))
                      (color u) (size u) (tool u))) es
  ++ [("end-draw",
       JObj [("roomId", JStr (roomId u)); ("tool", JStr (tool_name (tool u)))])].

Section WithRasteriser.

Variable paint : DrawOp -> Ctx -> Bitmap -> Bitmap.

(** The receiver's listeners run on a list of relayed messages, in order. *)
Definition replay (msgs : list (string * JsVal)) (st : State) : State :=
  fold_left (fun s m => receive paint (fst m) (snd m) s) msgs st.

(** The rasteriser leaves the pixels outside a [w] by [h] canvas alone. *)
Definition clips (w h : Z) : Prop :=
  forall op cx (b : Bitmap) p,
    inside 1 0 0 w h p = false -> paint op cx b !! p = b !! p.

End WithRasteriser.

(** [Demo.dot_paint] clipped to an 800 by 600 canvas. *)
Definition clipped_paint (op : DrawOp) (cx : Ctx) (b : Bitmap) : Bitmap :=
  filter (fun kv => inside 1 0 0 800 600 (fst kv) = true) (Demo.dot_paint op cx b) ∪
  filter (fun kv => inside 1 0 0 800 600 (fst kv) = false) b.

(** The joined client with the rectangle tool, pressed at (10, 10). *)
Definition framing_client : State :=
  run clipped_paint [SelectTool RECTANGLE; PointerDown Demo.at_origin]
    Demo.joined_client.

(** The joined client with the brush pressed at (10, 10) and moved to
    (50, 50). *)
Definition drawing_client : State :=
  run Demo.dot_paint [PointerDown Demo.at_origin; PointerMove Demo.further]
    Demo.joined_client.

End Session.

(* ===================================================================== *)
(** ** Properties of the relay *)
(* ===================================================================== *)

Module RelayProofs.
Import Server.

Lemma mem_sid_In s l : mem_sid s l = true <-> In s l.
Proof.
  unfold mem_sid. rewrite existsb_exists. split.
  - intros (x & Hx & He). apply String.eqb_eq in He. now subst.
  - intros H. exists s. split; [assumption | apply String.eqb_refl].
Qed.

Lemma room_sids_In a room s :
  In s (room_sids a room) <->
  exists r, In (r, s) a /\ same_value_zero r room = true.
Proof.
  unfold room_sids. rewrite in_map_iff. split.
  - intros ([r s'] & Hs & Hf). simpl in Hs. subst s'.
    apply filter_In in Hf as [Hin Heq]. now exists r.
  - intros (r & Hin & Heq). exists (r, s). split; [reflexivity|].
    apply filter_In. now split.
Qed.

Lemma own_sid_in_own_room a sock :
  connected a sock -> In sock (room_sids a (JStr sock)).
Proof.
  intros H. apply room_sids_In. exists (JStr sock). split; [exact H|].
  simpl. apply String.eqb_refl.
Qed.

Lemma broadcast_not_excluded a rooms except s :
  In s (broadcast a rooms except) -> ~ In s (flat_map (room_sids a) except).
Proof.
  unfold broadcast. rewrite nodup_In, filter_In. intros [_ Hn] Hin.
  apply mem_sid_In in Hin. rewrite Hin in Hn. discriminate.
Qed.

Lemma broadcast_member a rooms except s :
  In s (broadcast a rooms except) -> exists r, In (r, s) a.
Proof.
  unfold broadcast. rewrite nodup_In, filter_In. intros [Hc _].
  destruct rooms as [|r0 rs].
  - unfold all_sids in Hc. rewrite nodup_In, in_map_iff in Hc.
    destruct Hc as ([r s'] & Hs & Hin). simpl in Hs. subst s'. now exists r.
  - apply in_flat_map in Hc as (room & _ & Hin).
    apply room_sids_In in Hin as (r & Hin & _). now exists r.
Qed.

Lemma socket_to_emit_payload a sock room ev payload d :
  In d (socket_to_emit a sock room ev payload) ->
  event d = ev /\ args d = payload /\
  In (recipient d) (broadcast a (room_list room) [JStr sock]).
Proof.
  unfold socket_to_emit. rewrite in_map_iff. intros (r & <- & Hin). now simpl.
Qed.

Lemma socket_to_emit_excludes a sock room ev payload d :
  own_room a ->
  In d (socket_to_emit a sock room ev payload) -> recipient d <> sock.
Proof.
  intros Hown Hd Heq.
  apply socket_to_emit_payload in Hd as (_ & _ & Hin). rewrite Heq in Hin.
  pose proof (broadcast_not_excluded _ _ _ _ Hin) as Hex.
  apply broadcast_member in Hin as (r & Hr).
  apply Hex. simpl. rewrite app_nil_r.
  apply own_sid_in_own_room. exact (Hown _ _ Hr).
Qed.

Lemma own_room_add_member a sock room :
  own_room a -> connected a sock \/ room = JStr sock ->
  own_room (add_member a sock room).
Proof.
  intros Hown Hc. unfold add_member.
  destruct (mem_sid sock (room_sids a room)); [assumption|].
  intros r s Hin. apply in_app_iff in Hin as [Hin | [Heq | []]].
  - apply in_app_iff. left. exact (Hown _ _ Hin).
  - injection Heq as <- <-. apply in_app_iff.
    destruct Hc as [Hc | ->]; [now left | right; now left].
Qed.

Lemma connected_add_member a sock s room :
  connected a s -> connected (add_member a sock room) s.
Proof.
  unfold connected, add_member. intros H.
  destruct (mem_sid sock (room_sids a room)); [assumption|].
  apply in_app_iff. now left.
Qed.

Lemma own_room_join a sock room :
  own_room a -> connected a sock -> own_room (join a sock room).
Proof.
  unfold join. generalize (room_list room). intros rs. revert a.
  induction rs as [|r rs IH]; intros a Hown Hc; simpl; [assumption|].
  apply IH.
  - apply own_room_add_member; auto.
  - now apply connected_add_member.
Qed.

Lemma own_room_leave_all a sock : own_room a -> own_room (leave_all a sock).
Proof.
  intros Hown r s Hin. unfold leave_all in *.
  apply filter_In in Hin as [Hin Hne]. apply filter_In. split.
  - exact (Hown _ _ Hin).
  - exact Hne.
Qed.

(** Only "join-room" changes the memberships. *)
Lemma handle_adapter ev sock data a a' ds :
  handle ev sock data a = Some (a', ds) -> a' = a \/ a' = join a sock data.
Proof.
  unfold handle, on_join_room, on_start_draw, on_drawing, on_end_draw,
    on_cursor_move, on_start_shape, on_drawing_shape, on_end_shape,
    on_clear_canvas, on_clear, on_draw_text, on_undo, on_redo, forward.
  repeat match goal with
         | |- context [String.eqb ev ?s] => destruct (String.eqb ev s)
         end;
    destruct (prop data "roomId"); destruct (to_string_ok data);
    intros H; inversion H; auto.
Qed.

Lemma own_room_step a a' : own_room a -> step a a' -> own_room a'.
Proof.
  intros Hown Hstep. destruct Hstep as [a sock | a sock ev data a' ds Hc Hh | a sock a' ds Hd].
  - apply own_room_add_member; auto.
  - apply handle_adapter in Hh as [-> | ->]; [assumption|].
    now apply own_room_join.
  - unfold on_disconnect in Hd. injection Hd as <- _. now apply own_room_leave_all.
Qed.

Lemma reachable_own_room a : reachable a -> own_room a.
Proof.
  induction 1 as [|a a' _ IH Hstep].
  - intros r s [].
  - exact (own_room_step _ _ IH Hstep).
Qed.

Lemma two_in_room_reachable : reachable Demo.two_in_room.
Proof.
  assert (H1 : reachable (on_connection "A" [])) by (eapply reach_step; [apply reach_init | apply step_connect]).
  assert (H2 : reachable (on_connection "B" (on_connection "A" [])))
    by (eapply reach_step; [exact H1 | apply step_connect]).
  assert (H3 : reachable [(JStr "A", "A"); (JStr "B", "B"); (JStr "demo1", "A")]).
  { eapply reach_step; [exact H2|].
    eapply (step_message _ "A" "join-room" (JStr "demo1")).
    - left. reflexivity.
    - reflexivity. }
  eapply reach_step; [exact H3|].
  eapply (step_message _ "B" "join-room" (JStr "demo1")).
  - right. left. reflexivity.
  - reflexivity.
Qed.

(** C1.  Whatever drawing operation a socket sends (start-draw, drawing,
    end-draw, start-shape, drawing-shape, end-shape, clear, clear-canvas,
    draw-text), in every state the server can reach, no delivery of the relay
    goes to the socket that sent it. *)
Theorem relay_excludes_sender a sock ev data a' ds d :
  reachable a ->
  In ev drawing_events ->
  handle ev sock data a = Some (a', ds) ->
  In d ds ->
  recipient d <> sock.
Proof.
  intros Hr Hev Hh Hd. apply reachable_own_room in Hr.
  unfold drawing_events in Hev. simpl in Hev.
  repeat (destruct Hev as [<- | Hev]); try contradiction;
    cbn in Hh;
    unfold on_start_draw, on_drawing, on_end_draw, on_start_shape,
      on_drawing_shape, on_end_shape, on_clear_canvas, on_clear,
      on_draw_text, forward in Hh;
    try (destruct (prop data "roomId"); [|discriminate]);
    injection Hh as <- <-;
    eapply socket_to_emit_excludes; eauto.
Qed.

(** In room "demo1" with A and B joined, A's "drawing" reaches B and not A. *)
Lemma relay_excludes_sender_witness :
  handle "drawing" "A" Demo.room_payload Demo.two_in_room
    = Some (Demo.two_in_room, [mkDelivery "B" "drawing" [Demo.room_payload]]) /\
  recipient (mkDelivery "B" "drawing" [Demo.room_payload]) <> "A".
Proof.
  split; [reflexivity|].
  apply (relay_excludes_sender Demo.two_in_room "A" "drawing" Demo.room_payload
           Demo.two_in_room [mkDelivery "B" "drawing" [Demo.room_payload]]).
  - exact two_in_room_reachable.
  - simpl. right. left. reflexivity.
  - reflexivity.
  - left. reflexivity.
Defined.

(** C2, as stated, fails: with A and B in room "demo1", the "clear-canvas"
    that A sends with the payload [{roomId: "demo1"}] is delivered to B
    without any payload. *)
Lemma clear_canvas_payload_not_forwarded :
  ~ (forall a' ds d,
       handle "clear-canvas" "A" Demo.room_payload Demo.two_in_room = Some (a', ds) ->
       In d ds -> args d = [Demo.room_payload]).
Proof.
  intros H.
  specialize (H Demo.two_in_room [mkDelivery "B" "clear-canvas" []]
                (mkDelivery "B" "clear-canvas" []) eq_refl (or_introl eq_refl)).
  discriminate H.
Qed.

(** C2, amended.  For start-draw, drawing, end-draw, start-shape,
    drawing-shape, end-shape, clear and draw-text, every delivery carries the
    event's name and exactly the payload the server received; a clear-canvas
    is delivered under its name with no payload at all. *)
Theorem relay_payload a sock ev data a' ds d :
  handle ev sock data a = Some (a', ds) ->
  In d ds ->
  (In ev forwarded_events -> event d = ev /\ args d = [data]) /\
  (ev = "clear-canvas" -> event d = ev /\ args d = []).
Proof.
  intros Hh Hd. split.
  - intros Hev. unfold forwarded_events in Hev. simpl in Hev.
    repeat (destruct Hev as [<- | Hev]); try contradiction;
      cbn in Hh;
      unfold on_start_draw, on_drawing, on_end_draw, on_start_shape,
        on_drawing_shape, on_end_shape, on_clear, on_draw_text, forward in Hh;
      try (destruct (prop data "roomId"); [|discriminate]);
      injection Hh as <- <-;
      apply socket_to_emit_payload in Hd as (He & Ha & _); now split.
  - intros ->. cbn in Hh. unfold on_clear_canvas in Hh.
    destruct (prop data "roomId"); [|discriminate].
    injection Hh as <- <-.
    apply socket_to_emit_payload in Hd as (He & Ha & _). now split.
Qed.

(** A's "draw-text" reaches B with the payload A sent. *)
Lemma relay_payload_witness :
  event (mkDelivery "B" "draw-text" [Demo.room_payload]) = "draw-text" /\
  args (mkDelivery "B" "draw-text" [Demo.room_payload]) = [Demo.room_payload].
Proof.
  refine (proj1 (relay_payload Demo.two_in_room "A" "draw-text" Demo.room_payload
                   Demo.two_in_room [mkDelivery "B" "draw-text" [Demo.room_payload]]
                   (mkDelivery "B" "draw-text" [Demo.room_payload]) _ _) _).
  - reflexivity.
  - left. reflexivity.
  - unfold forwarded_events. simpl. do 7 right. left. reflexivity.
Defined.

End RelayProofs.

(* ===================================================================== *)
(** ** Properties of the snapshot history *)
(* ===================================================================== *)

Module HistoryProofs.
Import Canvas Client.

#[local] Open Scope nat_scope.

Lemma push_bounded_room i h :
  length h < 30 -> push_bounded i h = h ++ [i].
Proof.
  intros H. unfold push_bounded. rewrite length_app. simpl.
  destruct (Nat.ltb_spec 30 (length h + 1)); [lia | reflexivity].
Qed.

Lemma push_bounded_full i h :
  length h = 30 -> push_bounded i h = tail h ++ [i].
Proof.
  intros H. unfold push_bounded. rewrite length_app. simpl.
  destruct (Nat.ltb_spec 30 (length h + 1)); [|lia].
  destruct h; [discriminate | reflexivity].
Qed.

Lemma push_bounded_length i h :
  length h <= 30 -> 1 <= length (push_bounded i h) <= 30.
Proof.
  intros H. destruct (Nat.eq_dec (length h) 30) as [E | E].
  - rewrite push_bounded_full by assumption. rewrite length_app. simpl.
    destruct h; simpl in *; lia.
  - rewrite push_bounded_room by lia. rewrite length_app. simpl. lia.
Qed.

Lemma push_bounded_nonempty i h : 1 <= length (push_bounded i h).
Proof.
  unfold push_bounded. rewrite length_app. simpl.
  destruct (Nat.ltb_spec 30 (length h + 1)).
  - destruct h; simpl in *; [lia|]. rewrite length_app. simpl. lia.
  - rewrite length_app. simpl. lia.
Qed.

Lemma historyRef_saveCanvas st :
  historyRef (saveCanvas st) =
  match canvasRef st with
  | Some c => push_bounded (toDataURL c) (historyRef st)
  | None => historyRef st
  end.
Proof. unfold saveCanvas. now destruct (canvasRef st). Qed.

Lemma canvasRef_saveCanvas st : canvasRef (saveCanvas st) = canvasRef st.
Proof. unfold saveCanvas. destruct (canvasRef st) eqn:E; exact E. Qed.

Lemma loading_saveCanvas st : loading (saveCanvas st) = loading st.
Proof. unfold saveCanvas. now destruct (canvasRef st). Qed.

Lemma historyRef_restoreCanvas i st : historyRef (restoreCanvas i st) = historyRef st.
Proof. unfold restoreCanvas. now destruct (canvasRef st), (ctxRef st). Qed.

Lemma historyRef_handleUndo st :
  historyRef (handleUndo st) =
  if Nat.ltb 1 (length (historyRef st)) then removelast (historyRef st)
  else historyRef st.
Proof.
  unfold handleUndo. destruct (Nat.ltb 1 (length (historyRef st))); [|reflexivity].
  cbn. destruct (last (removelast (historyRef st))); [|reflexivity].
  apply historyRef_restoreCanvas.
Qed.

Lemma removelast_length {A} (l : list A) : length (removelast l) = pred (length l).
Proof.
  induction l as [|x [|y l] IH]; [reflexivity | reflexivity |].
  change (removelast (x :: y :: l)) with (x :: removelast (y :: l)).
  simpl length in *. rewrite IH. reflexivity.
Qed.

Lemma saveCanvas_upper st :
  length (historyRef st) <= 30 -> length (historyRef (saveCanvas st)) <= 30.
Proof.
  intros H. rewrite historyRef_saveCanvas. destruct (canvasRef st); [|assumption].
  now apply push_bounded_length.
Qed.

Lemma saveCanvas_lower st :
  1 <= length (historyRef st) -> 1 <= length (historyRef (saveCanvas st)).
Proof.
  intros H. rewrite historyRef_saveCanvas. destruct (canvasRef st); [|assumption].
  apply push_bounded_nonempty.
Qed.

Lemma handleUndo_bounds st :
  (length (historyRef st) <= 30 -> length (historyRef (handleUndo st)) <= 30) /\
  (1 <= length (historyRef st) -> 1 <= length (historyRef (handleUndo st))).
Proof.
  rewrite historyRef_handleUndo.
  destruct (Nat.ltb_spec 1 (length (historyRef st))); [|tauto].
  rewrite removelast_length. lia.
Qed.

Lemma resizeCanvas_history env st :
  historyRef (resizeCanvas env st) =
  match canvasRef st with
  | Some _ =>
      match canvasRef (resizeCanvas env st) with
      | Some c' => [toDataURL c']
      | None => []
      end
  | None => historyRef st
  end.
Proof. unfold resizeCanvas. destruct (canvasRef st); reflexivity. Qed.

Lemma resizeCanvas_bounds env st :
  (length (historyRef st) <= 30 -> length (historyRef (resizeCanvas env st)) <= 30) /\
  (1 <= length (historyRef st) -> 1 <= length (historyRef (resizeCanvas env st))).
Proof.
  unfold resizeCanvas. destruct (canvasRef st); [|tauto]. cbn. lia.
Qed.

Lemma saveCanvas_ok lo st : history_ok lo st -> history_ok lo (saveCanvas st).
Proof. destruct lo; [apply saveCanvas_lower | apply saveCanvas_upper]. Qed.

Lemma handleUndo_ok lo st : history_ok lo st -> history_ok lo (handleUndo st).
Proof. destruct lo; apply handleUndo_bounds. Qed.

Lemma resizeCanvas_ok lo env st : history_ok lo st -> history_ok lo (resizeCanvas env st).
Proof. destruct lo; apply resizeCanvas_bounds. Qed.

(** Joining touches neither the history nor the selections. *)
Lemma historyRef_join_now room st : historyRef (join_now room st) = historyRef st.
Proof. unfold join_now. cbn. now destruct (canvasRef st). Qed.

Lemma join_now_ok lo room st : history_ok lo st -> history_ok lo (join_now room st).
Proof. unfold history_ok. now rewrite historyRef_join_now. Qed.

(** What every waiting [connectHandler] preserves holds after "connect". *)
Lemma onConnect_inv (P : State -> Prop) st :
  (forall room s, P s -> P (join_now room s)) ->
  P (set_connectHandlers [] (set_connected true st)) ->
  P (onConnect st).
Proof.
  intros Hj. unfold onConnect.
  generalize (set_connectHandlers [] (set_connected true st)).
  induction (connectHandlers st) as [|room l IH]; intros s Hs; simpl; [exact Hs|].
  apply IH, Hj, Hs.
Qed.

Section WithRasteriser.

Variable paint : DrawOp -> Ctx -> Bitmap -> Bitmap.

Ltac branches :=
  repeat match goal with
         | |- context [if ?b then _ else _] => destruct b
         | |- context [match canvasRef ?s with _ => _ end] => destruct (canvasRef s)
         end.

Lemma receive_ok lo name data st :
  history_ok lo st -> history_ok lo (receive paint name data st).
Proof.
  intros H. unfold receive, onClear, handleRemoteStart, handleRemoteDrawing,
    handleRemoteEnd, handleRemoteText, clear_surface.
  branches; try assumption; apply saveCanvas_ok; assumption.
Qed.

Lemma step_ok lo ev st : history_ok lo st -> history_ok lo (step paint ev st).
Proof.
  intros H. destruct ev; cbn [step].
  - unfold handlePointerDown. branches; assumption.
  - unfold handlePointerMove. branches; assumption.
  - unfold stopDrawing. branches; try assumption. apply saveCanvas_ok. assumption.
  - now apply receive_ok.
  - destruct (joined (ui st)); [now apply handleUndo_ok | assumption].
  - destruct (joined (ui st)); [|assumption].
    unfold clearBoard. apply saveCanvas_ok.
    assert (Hs : history_ok lo (saveCanvas st)) by now apply saveCanvas_ok.
    unfold clear_surface. branches; exact Hs.
  - now apply resizeCanvas_ok.
  - unfold textKeyDown. branches; try assumption.
    assert (forall s, history_ok lo s -> history_ok lo (saveCanvas s))
      as Hs by (intros; now apply saveCanvas_ok).
    match goal with
    | |- history_ok lo (on_ui _ (emit _ _ (saveCanvas ?s))) =>
        exact (Hs s H)
    end.
  - unfold selectTool. branches; assumption.
  - assumption.
  - assumption.
  - assumption.
  - branches; assumption.
  - assumption.
  - unfold handleJoin. branches; try assumption. now apply join_now_ok.
  - unfold image_onload. destruct (loading st !! n); assumption.
  - apply onConnect_inv; [intros room s; apply join_now_ok | exact H].
  - exact H.
Qed.

Lemma run_ok lo evs st : history_ok lo st -> history_ok lo (run paint evs st).
Proof.
  unfold run. revert st. induction evs as [|ev evs IH]; intros st H; simpl.
  - assumption.
  - apply IH. now apply step_ok.
Qed.

End WithRasteriser.

Lemma In_removelast {A} (x : A) l : In x (removelast l) -> In x l.
Proof.
  induction l as [|y [|z l] IH]; [simpl; tauto | simpl; tauto |].
  change (removelast (y :: z :: l)) with (y :: removelast (z :: l)).
  intros [-> | H]; [now left | right; now apply IH].
Qed.

Lemma In_take {A} (x : A) n l : In x (take n l) -> In x l.
Proof.
  revert l. induction n as [|n IH]; intros [|y l]; simpl; try tauto.
  intros [-> | H]; [now left | right; now apply IH].
Qed.

Lemma last_In {A} (x : A) l : last l = Some x -> In x l.
Proof.
  induction l as [|y [|z l] IH]; [discriminate | |].
  - intros [= ->]. now left.
  - intros H. right. now apply IH.
Qed.

Lemma pushes_room imgs h :
  length (h ++ imgs) <= 30 -> pushes imgs h = h ++ imgs.
Proof.
  revert h. induction imgs as [|i imgs IH]; intros h H; simpl.
  - now rewrite app_nil_r.
  - rewrite length_app in H. simpl in H.
    unfold pushes in *. rewrite push_bounded_room by lia.
    rewrite IH; rewrite <- app_assoc; [reflexivity|].
    rewrite length_app. simpl. lia.
Qed.

(** Thirty-one pushes onto an empty history leave the last thirty. *)
Lemma pushes_31 i imgs : length imgs = 30 -> pushes (i :: imgs) [] = imgs.
Proof.
  intros H. destruct (exists_last (l := imgs)) as (front & j & ->).
  { intros ->. discriminate. }
  rewrite length_app in H. simpl in H.
  unfold pushes. rewrite app_comm_cons, fold_left_app. simpl fold_left at 1.
  fold (pushes (i :: front) []). rewrite pushes_room by (simpl; lia).
  simpl app. rewrite push_bounded_full by (simpl; lia). reflexivity.
Qed.

Lemma historyRef_snapshots cs st :
  historyRef (fold_left snapshot cs st) = pushes (map toDataURL cs) (historyRef st).
Proof.
  revert st. induction cs as [|c cs IH]; intros st; [reflexivity|].
  simpl. rewrite IH. unfold snapshot. rewrite historyRef_saveCanvas. reflexivity.
Qed.

Lemma loading_snapshots cs st : loading (fold_left snapshot cs st) = loading st.
Proof.
  revert st. induction cs as [|c cs IH]; intros st; [reflexivity|].
  simpl. rewrite IH. unfold snapshot. now rewrite loading_saveCanvas.
Qed.

Lemma undo_times_S n st : undo_times (S n) st = handleUndo (undo_times n st).
Proof. reflexivity. Qed.

(** Undo only ever shortens the history to one of its prefixes, and never
    to less than its first entry. *)
Lemma historyRef_undo_times n st :
  historyRef st <> [] ->
  historyRef (undo_times n st) =
  take (Nat.max 1 (length (historyRef st) - n)) (historyRef st).
Proof.
  intros Hne. assert (1 <= length (historyRef st)) as Hlen
    by (destruct (historyRef st); [congruence | simpl; lia]).
  induction n as [|n IH].
  - simpl. rewrite Nat.sub_0_r, Nat.max_r by lia. now rewrite firstn_all.
  - rewrite undo_times_S, historyRef_handleUndo, IH.
    rewrite length_take.
    set (len := length (historyRef st)) in *.
    destruct (Nat.ltb_spec 1 (Nat.min (Nat.max 1 (len - n)) len)) as [Hk | Hk].
    + assert (Nat.max 1 (len - n) = S (Nat.max 1 (len - S n))) as -> by lia.
      apply removelast_firstn. fold len. lia.
    + f_equal. lia.
Qed.

Lemma loading_handleUndo img st :
  In img (loading (handleUndo st)) -> In img (loading st) \/ In img (historyRef st).
Proof.
  unfold handleUndo. destruct (Nat.ltb 1 (length (historyRef st))); [|now left].
  cbn. destruct (last (removelast (historyRef st))) as [prev|] eqn:El; [|now left].
  unfold restoreCanvas. cbn.
  destruct (canvasRef st), (ctxRef st); cbn; try (now left).
  intros H. apply in_app_iff in H as [H | [<- | []]]; [now left|].
  right. apply In_removelast. now apply last_In.
Qed.

Lemma loading_undo_times img n st :
  In img (loading (undo_times n st)) -> In img (loading st) \/ In img (historyRef st).
Proof.
  induction n as [|n IH]; [now left|].
  rewrite undo_times_S. intros H. apply loading_handleUndo in H as [H | H].
  - now apply IH.
  - destruct (historyRef st) as [|i h] eqn:Eh.
    + exfalso. clear IH. revert H. clear -Eh.
      induction n as [|n IH]; simpl.
      * now rewrite Eh.
      * fold (undo_times n st). rewrite historyRef_handleUndo.
        destruct (Nat.ltb 1 _); [|exact IH].
        intros H. apply IH. now apply In_removelast.
    + rewrite historyRef_undo_times in H by (rewrite Eh; discriminate).
      right. rewrite <- Eh. exact (In_take _ _ _ H).
Qed.

(** C3.  The history never exceeds 30 entries, whatever happens to the
    component; a push onto 30 entries drops the oldest and appends the new
    one; and after 31 pushes onto an empty history the entries are the last
    30 pushed, every later sequence of undos leaves a non-empty prefix of
    them and restores only images among them, so that the first snapshot
    pushed, when it differs from the others, is neither kept nor restored. *)
Theorem history_bounded_fifo (paint : DrawOp -> Ctx -> Bitmap -> Bitmap) :
  (forall evs st,
      length (historyRef st) <= 30 ->
      length (historyRef (run paint evs st)) <= 30) /\
  (forall st c,
      canvasRef st = Some c -> length (historyRef st) = 30 ->
      historyRef (saveCanvas st) = tail (historyRef st) ++ [toDataURL c]) /\
  (forall st c1 cs n,
      historyRef st = [] -> length cs = 30 ->
      let st31 := fold_left snapshot (c1 :: cs) st in
      let after := undo_times n st31 in
      historyRef st31 = map toDataURL cs /\
      (exists k, 1 <= k <= 30 /\ historyRef after = take k (map toDataURL cs)) /\
      (forall img, In img (loading after) ->
                   In img (loading st) \/ In img (map toDataURL cs)) /\
      (~ In (toDataURL c1) (map toDataURL cs) ->
       ~ In (toDataURL c1) (historyRef after))).
Proof.
  split; [|split].
  - intros evs st H. exact (run_ok paint false evs st H).
  - intros st c Hc Hlen. rewrite historyRef_saveCanvas, Hc.
    now apply push_bounded_full.
  - intros st c1 cs n Hst Hcs st31 after.
    assert (H31 : historyRef st31 = map toDataURL cs).
    { unfold st31. rewrite historyRef_snapshots, Hst.
      change (map toDataURL (c1 :: cs)) with (toDataURL c1 :: map toDataURL cs).
      apply pushes_31. now rewrite length_map. }
    assert (Hne : historyRef st31 <> []).
    { rewrite H31. destruct cs; [discriminate | discriminate]. }
    assert (Hu : historyRef after =
                 take (Nat.max 1 (30 - n)) (map toDataURL cs)).
    { unfold after. rewrite historyRef_undo_times by assumption.
      rewrite H31, length_map, Hcs. reflexivity. }
    split; [exact H31|]. split; [|split].
    + exists (Nat.max 1 (30 - n)). split; [lia | exact Hu].
    + intros img Hin. apply loading_undo_times in Hin.
      rewrite H31 in Hin. unfold st31 in Hin. rewrite loading_snapshots in Hin.
      exact Hin.
    + intros Hnot Hin. rewrite Hu in Hin. apply Hnot. exact (In_take _ _ _ Hin).
Qed.

(** A narrow canvas saved first and a new canvas saved thirty times: three
    undos later the narrow snapshot is not in the history. *)
Lemma history_bounded_fifo_witness :
  ~ In (toDataURL Demo.narrow_canvas)
       (historyRef
          (undo_times 3
             (fold_left snapshot (Demo.narrow_canvas :: repeat new_canvas 30)
                Demo.mounted_client))).
Proof.
  refine (proj2 (proj2 (proj2
            (proj2 (proj2 (history_bounded_fifo Demo.dot_paint))
               Demo.mounted_client Demo.narrow_canvas (repeat new_canvas 30) 3
               _ _))) _).
  - reflexivity.
  - reflexivity.
  - intros H. apply in_map_iff in H as (c & Hc & Hin).
    apply repeat_spec in Hin. subst c. discriminate Hc.
Defined.

(** C4.  Once the history holds a snapshot it never becomes empty again:
    every event of the component, undo included, and every sequence of
    events keeps at least one entry; and undo on a history of exactly one
    snapshot returns the state it was given, canvas and history alike. *)
Theorem history_never_empty (paint : DrawOp -> Ctx -> Bitmap -> Bitmap) st :
  1 <= length (historyRef st) ->
  (forall ev, 1 <= length (historyRef (step paint ev st))) /\
  (forall evs, 1 <= length (historyRef (run paint evs st))) /\
  1 <= length (historyRef (handleUndo st)) /\
  (length (historyRef st) = 1 -> handleUndo st = st).
Proof.
  intros H. split; [|split; [|split]].
  - intros ev. exact (step_ok paint true ev st H).
  - intros evs. exact (run_ok paint true evs st H).
  - exact (handleUndo_ok true st H).
  - intros H1. unfold handleUndo. now rewrite H1.
Qed.

(** The joined client holds the one blank snapshot its sizing pushed, and
    undo leaves it as it is. *)
Lemma history_never_empty_witness :
  length (historyRef Demo.joined_client) = 1 /\
  handleUndo Demo.joined_client = Demo.joined_client.
Proof.
  assert (E : length (historyRef Demo.joined_client) = 1) by reflexivity.
  split; [exact E|].
  refine (proj2 (proj2 (proj2
            (history_never_empty Demo.dot_paint Demo.joined_client _))) E).
  rewrite E. lia.
Defined.

(** C10, as stated, fails: the resize that the component runs when it
    mounts finds no canvas element (the board is not rendered before the
    room is joined) and leaves the history empty. *)
Lemma resize_without_canvas_pushes_nothing :
  length (historyRef (resizeCanvas Demo.env1 initial)) <> 1.
Proof. simpl. lia. Qed.

(** C10, amended.  With no canvas element mounted, [resizeCanvas] changes
    nothing.  With a canvas element mounted, it gives the canvas the size of
    its parent times the pixel ratio, leaves its bitmap blank and replaces the
    history by the one snapshot of that blank canvas, which no number of
    undos changes. *)
Theorem resize_resets_history env st :
  (canvasRef st = None -> resizeCanvas env st = st) /\
  (forall c, canvasRef st = Some c ->
     exists c',
       canvasRef (resizeCanvas env st) = Some c' /\
       width c' = (clientWidth env * dpr env)%Z /\
       height c' = (clientHeight env * dpr env)%Z /\
       bitmap c' = ∅ /\
       historyRef (resizeCanvas env st) = [toDataURL c'] /\
       forall n, historyRef (undo_times n (resizeCanvas env st)) = [toDataURL c']).
Proof.
  split.
  - intros H. unfold resizeCanvas. now rewrite H.
  - intros c Hc.
    assert (Hh : exists c',
               canvasRef (resizeCanvas env st) = Some c' /\
               width c' = (clientWidth env * dpr env)%Z /\
               height c' = (clientHeight env * dpr env)%Z /\
               bitmap c' = ∅ /\
               historyRef (resizeCanvas env st) = [toDataURL c']).
    { unfold resizeCanvas. rewrite Hc. eexists. split; [reflexivity|].
      cbn. repeat split. }
    destruct Hh as (c' & H1 & H2 & H3 & H4 & H5).
    exists c'. repeat (split; [assumption|]).
    intros n. rewrite historyRef_undo_times by (rewrite H5; discriminate).
    rewrite H5. simpl length. destruct n; reflexivity.
Qed.

(** Sizing the mounted client leaves one snapshot, of an 800 by 600 canvas. *)
Lemma resize_resets_history_witness :
  exists c',
    canvasRef (resizeCanvas Demo.env1 Demo.mounted_client) = Some c' /\
    width c' = 800%Z /\
    historyRef (resizeCanvas Demo.env1 Demo.mounted_client) = [toDataURL c'].
Proof.
  destruct (proj2 (resize_resets_history Demo.env1 Demo.mounted_client)
              new_canvas eq_refl) as (c' & H1 & H2 & _ & _ & H5 & _).
  exists c'. split; [exact H1|]. split; [exact H2 | exact H5].
Defined.

End HistoryProofs.

(* ===================================================================== *)
(** ** Properties of the drawing engine and of the remote applier *)
(* ===================================================================== *)

Module DrawingProofs.
Import Canvas Client.

Lemma strict_eq_str_true v s : strict_eq_str v s = true <-> v = JStr s.
Proof.
  destruct v; simpl; split; intros H; try discriminate.
  - apply String.eqb_eq in H. now subst.
  - injection H as ->. apply String.eqb_refl.
Qed.

Lemma strict_eq_str_false v s : v <> JStr s -> strict_eq_str v s = false.
Proof.
  intros H. destruct (strict_eq_str v s) eqn:E; [|reflexivity].
  apply strict_eq_str_true in E. contradiction.
Qed.

Lemma foreign_other_room data st :
  get data "roomId" <> JStr (roomId (ui st)) -> foreign data st = true.
Proof.
  intros H. unfold foreign. rewrite (strict_eq_str_false _ _ H).
  apply orb_true_r.
Qed.

Lemma foreign_stroke_payload st x y col sz t :
  foreign (stroke_payload (roomId (ui st)) x y col sz t) st = false.
Proof. unfold foreign. cbn. now rewrite String.eqb_refl. Qed.

(** C5 fails on the code at a pointer move with the eraser.  The joined
    client has the colour "#1e293b" and the size 4 selected, the eraser
    active and the pointer down at (10, 10).  Its "start-draw" carried
    "#ffffff" and 12, and the move to (50, 50) is stroked locally with
    "#ffffff" at width 12, but the "drawing" it emits carries the selected
    colour "#1e293b" and the unmultiplied size 4. *)
Theorem eraser_move_emits_selected_settings :
  last (emitted Demo.erasing_client)
    = Some ("start-draw", stroke_payload "demo1" 10 10 "#ffffff" 12 ERASER) /\
  (fun c => (strokeStyle (ctx c), lineWidth (ctx c)))
    <$> canvasRef (handlePointerMove Demo.dot_paint Demo.further Demo.erasing_client)
    = Some (JStr "#ffffff", JNum 12) /\
  last (emitted (handlePointerMove Demo.dot_paint Demo.further Demo.erasing_client))
    = Some ("drawing", stroke_payload "demo1" 50 50 "#1e293b" 4 ERASER).
Proof. repeat split. Qed.

(** What the peer then does with that message: it strokes the segment in
    the sender's selected colour at the unmultiplied width. *)
Lemma eraser_move_seen_by_peer :
  (fun c => (strokeStyle (ctx c), lineWidth (ctx c)))
    <$> canvasRef
          (handleRemoteDrawing Demo.dot_paint
             (stroke_payload "demo1" 50 50 "#1e293b" 4 ERASER) Demo.joined_client)
    = Some (JStr "#1e293b", JNum 4).
Proof. reflexivity. Qed.

Section WithRasteriser.

Variable paint : DrawOp -> Ctx -> Bitmap -> Bitmap.

(** What holds of the eraser in general: pressing the pointer sets the
    context to "#ffffff" and three times the size and emits the same. *)
Lemma eraser_pointer_down e st c :
  tool (ui st) = ERASER -> button e = 0 -> canvasRef st = Some c ->
  let x := clientX e - rectLeft e in
  let y := clientY e - rectTop e in
  emitted (handlePointerDown paint e st) =
    emitted st ++
      [("start-draw",
        stroke_payload (roomId (ui st)) x y "#ffffff" (size (ui st) * 3) ERASER)] /\
  (fun c => (strokeStyle (ctx c), lineWidth (ctx c)))
    <$> canvasRef (handlePointerDown paint e st)
    = Some (JStr "#ffffff", JNum (size (ui st) * 3)).
Proof.
  intros Ht Hb Hc x y. unfold handlePointerDown, stroke_color, stroke_size.
  rewrite Ht, Hb. cbn. rewrite Hc. now cbn.
Qed.

(** Moving the pointer strokes with the same two values, but emits the
    selected colour and size. *)
Lemma eraser_pointer_move e st c :
  tool (ui st) = ERASER -> isDrawingRef st = true -> canvasRef st = Some c ->
  let x := clientX e - rectLeft e in
  let y := clientY e - rectTop e in
  emitted (handlePointerMove paint e st) =
    emitted st ++
      [("drawing",
        stroke_payload (roomId (ui st)) x y (color (ui st)) (size (ui st)) ERASER)] /\
  (fun c => (strokeStyle (ctx c), lineWidth (ctx c)))
    <$> canvasRef (handlePointerMove paint e st)
    = Some (JStr "#ffffff", JNum (size (ui st) * 3)).
Proof.
  intros Ht Hd Hc x y. unfold handlePointerMove, draw_point, stroke_color, stroke_size.
  rewrite Ht, Hd. cbn. rewrite Hc. now cbn.
Qed.

(** C7.  An incoming start-draw, drawing, end-draw, draw-text or clear that
    names another room than the receiver's leaves the receiver's whole
    state, and so its canvas and its snapshot history, as it was. *)
Theorem foreign_room_ignored ev data st :
  In ev applied_events ->
  carried_room ev data <> JStr (roomId (ui st)) ->
  receive paint ev data st = st /\
  canvasRef (receive paint ev data st) = canvasRef st /\
  historyRef (receive paint ev data st) = historyRef st.
Proof.
  intros Hev Hroom.
  assert (H : receive paint ev data st = st); [|now rewrite H].
  unfold applied_events in Hev. simpl in Hev.
  repeat (destruct Hev as [<- | Hev]); try contradiction;
    cbn in Hroom; cbn [receive String.eqb Ascii.eqb Bool.eqb];
    try (destruct (joined (ui st)); [|reflexivity]); cbn [negb];
    unfold handleRemoteStart, handleRemoteDrawing, handleRemoteEnd,
      handleRemoteText, onClear;
    try (now rewrite (foreign_other_room _ _ Hroom)).
  now rewrite (strict_eq_str_false _ _ Hroom).
Qed.

(** [clearRect] over the whole canvas. *)
Lemma clearRect_idem x y w h c :
  clearRect x y w h (clearRect x y w h c) = clearRect x y w h c.
Proof.
  unfold clearRect, set_bitmap. cbn. f_equal.
  apply map_filter_filter_l. intros i p _ H. exact H.
Qed.

Lemma canvasRef_clear_surface st :
  canvasRef (clear_surface st) =
  if ctxRef st
  then (fun canvas => clearRect 0 0 (width canvas) (height canvas) canvas) <$> canvasRef st
  else canvasRef st.
Proof. unfold clear_surface. now destruct (ctxRef st). Qed.

Lemma ctxRef_clear_surface st : ctxRef (clear_surface st) = ctxRef st.
Proof. unfold clear_surface. destruct (ctxRef st) eqn:E; exact E. Qed.

Lemma ctxRef_saveCanvas st : ctxRef (saveCanvas st) = ctxRef st.
Proof. unfold saveCanvas. now destruct (canvasRef st). Qed.

Lemma ui_room_saveCanvas st : roomId (ui (saveCanvas st)) = roomId (ui st).
Proof. unfold saveCanvas. destruct (canvasRef st); reflexivity. Qed.

Lemma ui_room_clear_surface st : roomId (ui (clear_surface st)) = roomId (ui st).
Proof. unfold clear_surface. now destruct (ctxRef st). Qed.

Lemma clear_surface_twice st s' :
  ctxRef s' = ctxRef st ->
  canvasRef s' = canvasRef (clear_surface st) ->
  canvasRef (clear_surface s') = canvasRef (clear_surface st).
Proof.
  intros Hx Hc. rewrite (canvasRef_clear_surface s'), Hx, Hc.
  rewrite canvasRef_clear_surface. destruct (ctxRef st); [|reflexivity].
  destruct (canvasRef st) as [c|]; [|reflexivity]. cbn. f_equal.
  apply clearRect_idem.
Qed.

Lemma canvasRef_clearBoard st :
  canvasRef (clearBoard st) = canvasRef (clear_surface (saveCanvas st)).
Proof. unfold clearBoard. now rewrite HistoryProofs.canvasRef_saveCanvas. Qed.

Lemma ctxRef_clearBoard st : ctxRef (clearBoard st) = ctxRef st.
Proof.
  unfold clearBoard. rewrite ctxRef_saveCanvas. cbn [ctxRef emit set_emitted on_ui].
  now rewrite ctxRef_clear_surface, ctxRef_saveCanvas.
Qed.

(** C8.  Clearing twice in a row leaves the canvas (its pixels, and its
    context too) as clearing once does: for the "clear" received from the
    relay, through the listener or the dispatch, and for the local clear. *)
Theorem clear_idempotent room st :
  canvasRef (onClear room (onClear room st)) = canvasRef (onClear room st) /\
  canvasRef (receive paint "clear" room (receive paint "clear" room st))
    = canvasRef (receive paint "clear" room st) /\
  canvasRef (clearBoard (clearBoard st)) = canvasRef (clearBoard st) /\
  bitmap <$> canvasRef (onClear room (onClear room st))
    = bitmap <$> canvasRef (onClear room st).
Proof.
  assert (H : canvasRef (onClear room (onClear room st)) = canvasRef (onClear room st)).
  { unfold onClear at 2 3.
    destruct (strict_eq_str room (roomId (ui st))) eqn:E; cbn [negb].
    - unfold onClear.
      rewrite ui_room_saveCanvas, ui_room_clear_surface, E. cbn [negb].
      rewrite !HistoryProofs.canvasRef_saveCanvas.
      apply clear_surface_twice.
      + now rewrite ctxRef_saveCanvas, ctxRef_clear_surface.
      + now rewrite HistoryProofs.canvasRef_saveCanvas.
    - unfold onClear. now rewrite E. }
  split; [exact H|]. split; [exact H|]. split; [|now rewrite H].
  rewrite (canvasRef_clearBoard (clearBoard st)), (canvasRef_clearBoard st).
  apply clear_surface_twice.
  - now rewrite !ctxRef_saveCanvas, ctxRef_clearBoard.
  - now rewrite HistoryProofs.canvasRef_saveCanvas, canvasRef_clearBoard.
Qed.

Lemma ui_handleRemoteStart data st : ui (handleRemoteStart data st) = ui st.
Proof. unfold handleRemoteStart. now destruct (foreign data st). Qed.

(** C6, amended.  A remote stroke or text that names the receiver's room
    and carries values the context accepts (numeric coordinates, a
    hexadecimal colour, a positive size) is drawn from the message alone:
    the stroke colour is the message's colour, or "#000" when that is
    missing or empty; the line width is the message's size, or 3 when that
    is missing or zero; the points are the message's; the text, its anchor,
    its colour and its font size are the message's.  The receiver's selected
    colour, size and tool have no influence on the canvas.  In particular a
    start-draw at (10, 10) followed by a drawing at (50, 50), both with
    colour "#ef4444" and size 4, stroke the path from (10, 10) to (50, 50)
    in "#ef4444" at width 4. *)
Theorem remote_render_uses_message data st c :
  foreign data st = false ->
  canvasRef st = Some c ->
  (stroke_message_ok data = true ->
   (exists c',
      canvasRef (handleRemoteStart data st) = Some c' /\
      path (ctx c') = [MoveTo (get data "x") (get data "y")] /\
      strokeStyle (ctx c') = or_else (get data "color") (JStr "#000") /\
      lineWidth (ctx c') = or_else (get data "size") (JNum 3) /\
      accepts_colour (strokeStyle (ctx c')) = true /\
      accepts_lineWidth (lineWidth (ctx c')) = true /\
      bitmap c' = bitmap c) /\
   (exists c',
      canvasRef (handleRemoteDrawing paint data st) = Some c' /\
      path (ctx c') = path (ctx c) ++ [LineTo (get data "x") (get data "y")] /\
      strokeStyle (ctx c') = or_else (get data "color") (JStr "#000") /\
      lineWidth (ctx c') = or_else (get data "size") (JNum 3) /\
      (truthy (get data "color") = true -> strokeStyle (ctx c') = get data "color") /\
      (truthy (get data "size") = true -> lineWidth (ctx c') = get data "size") /\
      accepts_colour (strokeStyle (ctx c')) = true /\
      accepts_lineWidth (lineWidth (ctx c')) = true /\
      bitmap c' = paint Stroke (ctx c') (bitmap c)) /\
   (forall col sz t,
      let st' := on_ui (fun u => setTool t (setSize sz (setColor col u))) st in
      canvasRef (handleRemoteStart data st') = canvasRef (handleRemoteStart data st) /\
      canvasRef (handleRemoteDrawing paint data st')
        = canvasRef (handleRemoteDrawing paint data st))) /\
  (text_message_ok data = true ->
   (exists c',
      canvasRef (handleRemoteText paint data st) = Some c' /\
      font (ctx c') = PxInter (get data "fontSize") /\
      fillStyle (ctx c') = get data "color" /\
      accepts_font (font (ctx c')) = true /\
      accepts_colour (fillStyle (ctx c')) = true /\
      bitmap c' =
        paint (FillText (get data "text") (get data "x") (get data "y"))
          (ctx c') (bitmap c)) /\
   (forall col sz t,
      let st' := on_ui (fun u => setTool t (setSize sz (setColor col u))) st in
      canvasRef (handleRemoteText paint data st')
        = canvasRef (handleRemoteText paint data st))) /\
  (forall t,
      let start := stroke_payload (roomId (ui st)) 10 10 "#ef4444" 4 t in
      let point := stroke_payload (roomId (ui st)) 50 50 "#ef4444" 4 t in
      stroke_message_ok start = true /\ stroke_message_ok point = true /\
      exists c',
        canvasRef (handleRemoteDrawing paint point (handleRemoteStart start st))
          = Some c' /\
        path (ctx c') = [MoveTo (JNum 10) (JNum 10); LineTo (JNum 50) (JNum 50)] /\
        strokeStyle (ctx c') = JStr "#ef4444" /\
        lineWidth (ctx c') = JNum 4 /\
        bitmap c' = paint Stroke (ctx c') (bitmap c)).
Proof.
  intros Hf Hc.
  assert (Hind : forall col sz t,
            foreign data
              (on_ui (fun u => setTool t (setSize sz (setColor col u))) st) = false)
    by (intros; exact Hf).
  split; [|split].
  - intros Hok. unfold stroke_message_ok in Hok.
    apply andb_prop in Hok as [Hok Hw]. apply andb_prop in Hok as [_ Hcol].
    split; [|split].
    + unfold handleRemoteStart. rewrite Hf. cbn. rewrite Hc. cbn.
      eexists. split; [reflexivity|]. cbn. repeat split; assumption.
    + unfold handleRemoteDrawing. rewrite Hf. cbn. rewrite Hc. cbn.
      eexists. split; [reflexivity|]. cbn. repeat split; try assumption.
      * intros Ht. unfold or_else. now rewrite Ht.
      * intros Ht. unfold or_else. now rewrite Ht.
    + intros col sz t st'.
      unfold handleRemoteStart, handleRemoteDrawing.
      unfold st'. rewrite Hf, (Hind col sz t). repeat split.
  - intros Hok. unfold text_message_ok in Hok.
    apply andb_prop in Hok as [Hok Hfont]. apply andb_prop in Hok as [_ Hcol].
    split.
    + unfold handleRemoteText. rewrite Hf. cbn. rewrite Hc. cbn.
      eexists. split; [reflexivity|]. cbn. repeat split; assumption.
    + intros col sz t st'. unfold handleRemoteText.
      unfold st'. rewrite Hf, (Hind col sz t). reflexivity.
  - intros t start point.
    split; [reflexivity|]. split; [reflexivity|].
    pose proof (foreign_stroke_payload st 10 10 "#ef4444" 4 t) as Hs.
    pose proof (foreign_stroke_payload st 50 50 "#ef4444" 4 t) as Hp.
    fold start in Hs. fold point in Hp.
    assert (Hp' : foreign point (handleRemoteStart start st) = false).
    { unfold foreign in *. now rewrite ui_handleRemoteStart. }
    unfold handleRemoteDrawing. rewrite Hp'.
    unfold handleRemoteStart. rewrite Hs. cbn. rewrite Hc. cbn.
    eexists. split; [reflexivity|]. cbn. repeat split.
Qed.

(** C9.  Enter in the text input changes the component only when the key is
    Enter, the trimmed text is not empty and both placement coordinates are
    nonzero: with anything else, and in particular with a placement at
    x = 0 or y = 0, the key leaves the whole state as it was, so nothing is
    drawn, nothing is pushed onto the history and nothing is emitted.  When
    the conditions hold and the canvas is mounted with its context, the
    text is committed: "draw-text" is emitted. *)
Theorem text_commit_guard env key st :
  let st' := textKeyDown paint env key st in
  let x := fst (textPosition (ui st)) in
  let y := snd (textPosition (ui st)) in
  (st' <> st ->
   key = "Enter" /\ trim (textInput (ui st)) <> "" /\ x <> 0 /\ y <> 0) /\
  (canvasRef st' <> canvasRef st \/ historyRef st' <> historyRef st \/
   emitted st' <> emitted st ->
   key = "Enter" /\ trim (textInput (ui st)) <> "" /\ x <> 0 /\ y <> 0) /\
  (x = 0 \/ y = 0 -> st' = st) /\
  (key = "Enter" -> trim (textInput (ui st)) <> "" -> x <> 0 -> y <> 0 ->
   forall c, canvasRef st = Some c -> ctxRef st = true ->
   emitted st' =
     emitted st ++
       [("draw-text",
         text_payload (roomId (ui st)) (textInput (ui st)) (x * dpr env)
           (y * dpr env) (color (ui st)) (size (ui st) * 4))]).
Proof.
  intros st' x y.
  assert (Hguard : st' <> st ->
            key = "Enter" /\ trim (textInput (ui st)) <> "" /\ x <> 0 /\ y <> 0).
  { unfold st', textKeyDown. fold x y.
    destruct (String.eqb_spec key "Enter") as [Hk | Hk]; [|now intros []].
    destruct (String.eqb_spec (trim (textInput (ui st))) "") as [Ht | Ht];
      unfold nonempty;
      [ apply String.eqb_eq in Ht; rewrite Ht; now intros [] |].
    apply String.eqb_neq in Ht as Ht'. rewrite Ht'.
    destruct (Z.eqb_spec x 0) as [Hx | Hx]; [now intros []|].
    destruct (Z.eqb_spec y 0) as [Hy | Hy]; [now intros []|].
    intros _. repeat split; assumption. }
  split; [exact Hguard|]. split; [|split].
  - intros H. apply Hguard. intros E. rewrite E in H.
    destruct H as [H | [H | H]]; now apply H.
  - intros H. unfold st', textKeyDown. fold x y.
    destruct H as [-> | ->]; cbn [Z.eqb negb]; now rewrite ?andb_false_r.
  - intros Hk Ht Hx Hy c Hc Hctx. unfold st', textKeyDown. fold x y.
    rewrite Hk. cbn [String.eqb Ascii.eqb Bool.eqb andb].
    unfold nonempty. apply String.eqb_neq in Ht. rewrite Ht.
    apply Z.eqb_neq in Hx, Hy. rewrite Hx, Hy. cbn [negb andb].
    rewrite Hc, Hctx. cbn.
    unfold saveCanvas. cbn. rewrite Hc. reflexivity.
Qed.

End WithRasteriser.

(** C6, as stated, fails: a "drawing" for the receiver's room that carries
    the size 0 is stroked at width 3, which is not the size it carries. *)
Lemma remote_zero_size_drawn_at_three :
  ~ (forall c',
       canvasRef (handleRemoteDrawing Demo.dot_paint Demo.zero_size_message
                    Demo.joined_client) = Some c' ->
       lineWidth (ctx c') = get Demo.zero_size_message "size").
Proof.
  intros H. pose proof (H _ eq_refl) as H'. discriminate H'.
Qed.

(** The stroke of the example on the joined client: its second message
    carries accepted values and is stroked in its colour at its width, and
    the two messages together leave the path of the example. *)
Lemma remote_render_uses_message_witness :
  foreign (stroke_payload "demo1" 50 50 "#ef4444" 4 BRUSH) Demo.joined_client = false /\
  stroke_message_ok (stroke_payload "demo1" 50 50 "#ef4444" 4 BRUSH) = true /\
  (exists c',
     canvasRef
       (handleRemoteDrawing Demo.dot_paint
          (stroke_payload "demo1" 50 50 "#ef4444" 4 BRUSH) Demo.joined_client)
       = Some c' /\
     strokeStyle (ctx c') = JStr "#ef4444" /\
     lineWidth (ctx c') = JNum 4) /\
  (exists c',
     canvasRef
       (handleRemoteDrawing Demo.dot_paint
          (stroke_payload "demo1" 50 50 "#ef4444" 4 BRUSH)
          (handleRemoteStart (stroke_payload "demo1" 10 10 "#ef4444" 4 BRUSH)
             Demo.joined_client)) = Some c' /\
     path (ctx c') = [MoveTo (JNum 10) (JNum 10); LineTo (JNum 50) (JNum 50)] /\
     strokeStyle (ctx c') = JStr "#ef4444" /\
     lineWidth (ctx c') = JNum 4).
Proof.
  destruct (canvasRef Demo.joined_client) as [c|] eqn:Ec; [|discriminate Ec].
  pose proof (remote_render_uses_message Demo.dot_paint
                (stroke_payload "demo1" 50 50 "#ef4444" 4 BRUSH)
                Demo.joined_client c eq_refl Ec) as (Hs & _ & He).
  split; [reflexivity|]. split; [reflexivity|]. split.
  - destruct (Hs eq_refl) as (_ & (c' & H1 & _ & H3 & H4 & _) & _).
    exists c'. repeat split; assumption.
  - destruct (He BRUSH) as (_ & _ & c' & H1 & H2 & H3 & H4 & _).
    exists c'. repeat split; assumption.
Defined.

(** Enter on "hello" placed at (120, 80) commits; the guard's conditions
    hold there. *)
Lemma text_commit_guard_witness :
  "Enter" = "Enter" /\ trim "hello" <> "" /\ (120 <> 0)%Z /\ (80 <> 0)%Z.
Proof.
  refine (proj1 (text_commit_guard Demo.dot_paint Demo.env1 "Enter"
                   Demo.placing_client) _).
  intros H. apply (f_equal emitted) in H. discriminate H.
Defined.

(** A "drawing" for room "other" leaves the client joined to "demo1" as it
    was. *)
Lemma foreign_room_ignored_witness :
  receive Demo.dot_paint "drawing" Demo.elsewhere_message Demo.joined_client
    = Demo.joined_client.
Proof.
  refine (proj1 (foreign_room_ignored Demo.dot_paint "drawing"
                   Demo.elsewhere_message Demo.joined_client _ _)).
  - unfold applied_events. simpl. right. left. reflexivity.
  - cbn. discriminate.
Defined.

End DrawingProofs.

(* ===================================================================== *)
(** ** More on the relay: who receives what *)
(* ===================================================================== *)

Module RelayMore.
Import Server RelayProofs Session.

Lemma same_value_zero_JStr v r : same_value_zero v (JStr r) = true <-> v = JStr r.
Proof.
  destruct v; simpl; split; intros H; try discriminate.
  - apply String.eqb_eq in H. now subst.
  - injection H as ->. apply String.eqb_refl.
Qed.

Lemma room_sids_JStr a r s : In s (room_sids a (JStr r)) <-> In (JStr r, s) a.
Proof.
  rewrite room_sids_In. split.
  - intros (v & Hin & Hv). apply same_value_zero_JStr in Hv. now subst.
  - intros H. exists (JStr r). split; [assumption|]. now apply same_value_zero_JStr.
Qed.

Lemma broadcast_room a r sock s :
  In s (broadcast a [JStr r] [JStr sock]) <->
  In (JStr r, s) a /\ ~ In (JStr sock, s) a.
Proof.
  unfold broadcast. rewrite nodup_In, filter_In. simpl. rewrite !app_nil_r.
  rewrite room_sids_JStr, negb_true_iff, <- not_true_iff_false, mem_sid_In,
    room_sids_JStr. reflexivity.
Qed.

Lemma socket_to_emit_recipients a sock room ev payload :
  recipients (socket_to_emit a sock room ev payload)
  = broadcast a (room_list room) [JStr sock].
Proof.
  unfold recipients, socket_to_emit. rewrite map_map. simpl. apply map_id.
Qed.

Lemma broadcast_NoDup a rooms except : List.NoDup (broadcast a rooms except).
Proof. unfold broadcast. apply NoDup_nodup. Qed.

Lemma carried_room_prop ev data r :
  Client.carried_room ev data = JStr r -> ev <> "clear" ->
  prop data "roomId" = Some (JStr r).
Proof.
  unfold Client.carried_room. intros H Hne.
  destruct (String.eqb_spec ev "clear") as [E | _]; [contradiction|].
  unfold get in H. destruct (prop data "roomId"); [now subst | discriminate].
Qed.

(** X1.  A drawing operation that names the room [r] changes no membership
    and is delivered exactly once to every socket that is a member of [r]
    and not of the room named by the sender's id, and to nobody else. *)
Theorem relay_reaches_room a sock ev data r a' ds :
  In ev drawing_events ->
  Client.carried_room ev data = JStr r ->
  handle ev sock data a = Some (a', ds) ->
  a' = a /\
  List.NoDup (recipients ds) /\
  forall s, In s (recipients ds) <-> In (JStr r, s) a /\ ~ In (JStr sock, s) a.
Proof.
  intros Hev Hroom Hh.
  assert (H : a' = a /\ recipients ds = broadcast a [JStr r] [JStr sock]).
  { unfold drawing_events in Hev. simpl in Hev.
    repeat (destruct Hev as [<- | Hev]); try contradiction;
      try (apply carried_room_prop in Hroom; [|discriminate]);
      cbn in Hh, Hroom;
      unfold on_start_draw, on_drawing, on_end_draw, on_start_shape,
        on_drawing_shape, on_end_shape, on_clear_canvas, on_clear,
        on_draw_text, forward in Hh;
      try rewrite Hroom in Hh; injection Hh as <- <-;
      (split; [reflexivity | apply socket_to_emit_recipients]). }
  destruct H as [-> Hrec]. split; [reflexivity|]. rewrite Hrec. split.
  - apply broadcast_NoDup.
  - intros s. apply broadcast_room.
Qed.

(** A's "drawing" for "demo1" reaches B, the other member, and only B. *)
Lemma relay_reaches_room_witness :
  recipients [mkDelivery "B" "drawing" [Demo.room_payload]] = ["B"] /\
  (In "B" (recipients [mkDelivery "B" "drawing" [Demo.room_payload]]) <->
   In (JStr "demo1", "B") Demo.two_in_room /\ ~ In (JStr "A", "B") Demo.two_in_room).
Proof.
  split; [reflexivity|].
  refine (proj2 (proj2 (relay_reaches_room Demo.two_in_room "A" "drawing"
                          Demo.room_payload "demo1" Demo.two_in_room
                          [mkDelivery "B" "drawing" [Demo.room_payload]] _ _ _)) "B").
  - unfold drawing_events. simpl. right. left. reflexivity.
  - reflexivity.
  - reflexivity.
Defined.

(** X2.  A listener throws in exactly two cases: when it reads [roomId] of
    a payload that is [undefined] or [null], and, for "join-room", when the
    log line cannot convert the room to a string, as with the object
    [{"toString": 1}].  The "clear" listener, which uses its argument as it
    is, and unknown events never throw. *)
Theorem handle_throws_iff ev sock data a :
  (handle ev sock data a = None <->
   ((data = JUndefined \/ data = JNull) /\ In ev roomId_readers) \/
   (ev = "join-room" /\ to_string_ok data = false)) /\
  handle "join-room" sock (JObj [("toString", JNum 1)]) a = None /\
  handle "join-room" sock JNull a <> None.
Proof.
  split; [|split; [reflexivity | discriminate]].
  assert (Hp : prop data "roomId" = None <-> data = JUndefined \/ data = JNull).
  { destruct data; simpl; split; intros H; try discriminate; auto;
      destruct H as [H | H]; discriminate. }
  unfold handle, on_join_room, on_start_draw, on_drawing, on_end_draw,
    on_cursor_move, on_start_shape, on_drawing_shape, on_end_shape,
    on_clear_canvas, on_clear, on_draw_text, on_undo, on_redo, forward,
    roomId_readers.
  repeat match goal with
         | |- context [String.eqb ev ?s] =>
             destruct (String.eqb_spec ev s) as [-> | ?]
         end;
    (split;
     [ intros H;
       first
         [ discriminate H
         | destruct (prop data "roomId") eqn:E;
           [ discriminate H | left; split; [now apply Hp | simpl; tauto] ]
         | destruct (to_string_ok data) eqn:Et;
           [ discriminate H | right; split; reflexivity ] ]
     | intros [[Hd Hin] | [He Ht]];
       [ first
           [ rewrite (proj2 Hp Hd); reflexivity
           | exfalso; simpl in Hin;
             repeat (destruct Hin as [Hin | Hin]; [congruence|]); exact Hin ]
       | first [ rewrite Ht; reflexivity | congruence ] ] ]).
Qed.

(** X3.  What a "cursor-move", "undo" or "redo" delivers is built by the
    server: one object whose [userId] is the sender's socket id, whatever
    the client sent under that name, and without the [roomId]; a
    "cursor-move" also copies [x], [y] and [color]. *)
Theorem notices_carry_sender a sock ev data a' ds d :
  In ev stamped_events ->
  handle ev sock data a = Some (a', ds) ->
  In d ds ->
  exists p,
    args d = [p] /\
    get p "userId" = JStr sock /\
    get p "roomId" = JUndefined /\
    (ev = "cursor-move" ->
     get p "x" = get data "x" /\ get p "y" = get data "y" /\
     get p "color" = get data "color").
Proof.
  intros Hev Hh Hd. unfold stamped_events in Hev. simpl in Hev.
  repeat (destruct Hev as [<- | Hev]); try contradiction;
    cbn in Hh; unfold on_cursor_move, on_undo, on_redo in Hh;
    (destruct (prop data "roomId"); [|discriminate]);
    injection Hh as <- <-;
    apply socket_to_emit_payload in Hd as (_ & Ha & _);
    eexists; (split; [exact Ha|]); repeat split; discriminate.
Qed.

(** A's "undo" for "demo1", sent with a forged [userId], reaches B with
    A's id. *)
Lemma notices_carry_sender_witness :
  exists p,
    args (mkDelivery "B" "undo" [user_id "A"]) = [p] /\ get p "userId" = JStr "A".
Proof.
  destruct (notices_carry_sender Demo.two_in_room "A" "undo"
              (JObj [("roomId", JStr "demo1"); ("userId", JStr "B")])
              Demo.two_in_room [mkDelivery "B" "undo" [user_id "A"]]
              (mkDelivery "B" "undo" [user_id "A"]))
    as (p & H1 & H2 & _).
  - unfold stamped_events. simpl. right. left. reflexivity.
  - reflexivity.
  - left. reflexivity.
  - exists p. now split.
Defined.

Lemma add_member_In a sock room m :
  In m (add_member a sock room) -> In m a \/ m = (room, sock).
Proof.
  unfold add_member. destruct (mem_sid sock (room_sids a room)); [now left|].
  intros H. apply in_app_iff in H as [H | [H | []]]; [now left | now right].
Qed.

Lemma add_member_keeps a sock room m : In m a -> In m (add_member a sock room).
Proof.
  unfold add_member. destruct (mem_sid sock (room_sids a room)); [auto|].
  intros H. apply in_app_iff. now left.
Qed.

Lemma join_In a sock room v s :
  In (room, s) (join a sock v) -> In (room, s) a \/ s = sock.
Proof.
  unfold join. generalize (room_list v). intros rs. revert a.
  induction rs as [|r0 rs IH]; intros a H; simpl in H; [now left|].
  apply IH in H as [H | H]; [|now right].
  apply add_member_In in H as [H | H]; [now left|]. right. congruence.
Qed.

(** X4.  After "join-room" with the room [r], the socket is a member of
    [r]; no membership was removed and none added but this one; the
    "user-joined" notice, carrying the joiner's id, goes to the members of [r]
    outside the joiner's own room, so never to the joiner; and joining the
    same room again changes nothing. *)
Theorem join_room_adds_member a sock r a' ds :
  connected a sock ->
  handle "join-room" sock (JStr r) a = Some (a', ds) ->
  In (JStr r, sock) a' /\
  (forall m, In m a -> In m a') /\
  (forall m, In m a' -> In m a \/ m = (JStr r, sock)) /\
  (forall s, In s (recipients ds) <-> In (JStr r, s) a' /\ ~ In (JStr sock, s) a') /\
  (forall d, In d ds ->
     event d = "user-joined" /\ args d = [user_id sock] /\ recipient d <> sock) /\
  exists ds', handle "join-room" sock (JStr r) a' = Some (a', ds').
Proof.
  intros Hc Hh.
  change (handle "join-room" sock (JStr r) a)
    with (Some (add_member a sock (JStr r),
                socket_to_emit (add_member a sock (JStr r)) sock (JStr r)
                  "user-joined" [user_id sock])) in Hh.
  injection Hh as <- <-.
  assert (Hin : In (JStr r, sock) (add_member a sock (JStr r))).
  { unfold add_member.
    destruct (mem_sid sock (room_sids a (JStr r))) eqn:E.
    - apply mem_sid_In in E. now apply room_sids_JStr.
    - apply in_app_iff. right. now left. }
  assert (Hrec : forall s,
            In s (recipients
                    (socket_to_emit (add_member a sock (JStr r)) sock (JStr r)
                       "user-joined" [user_id sock])) <->
            In (JStr r, s) (add_member a sock (JStr r)) /\
            ~ In (JStr sock, s) (add_member a sock (JStr r))).
  { intros s. rewrite socket_to_emit_recipients. apply broadcast_room. }
  split; [exact Hin|]. split; [intros m; apply add_member_keeps|].
  split; [intros m; apply add_member_In|]. split; [exact Hrec|]. split.
  - intros d Hd. pose proof Hd as Hd'.
    apply socket_to_emit_payload in Hd as (He & Ha & _).
    split; [exact He|]. split; [exact Ha|]. intros Heq.
    assert (Hr : In (recipient d)
                   (recipients
                      (socket_to_emit (add_member a sock (JStr r)) sock (JStr r)
                         "user-joined" [user_id sock])))
      by (unfold recipients; now apply in_map).
    apply Hrec in Hr as [_ Hn]. apply Hn. rewrite Heq.
    apply add_member_keeps. exact Hc.
  - eexists.
    change (handle "join-room" sock (JStr r) (add_member a sock (JStr r)))
      with (Some (add_member (add_member a sock (JStr r)) sock (JStr r),
                  socket_to_emit (add_member (add_member a sock (JStr r)) sock (JStr r))
                    sock (JStr r) "user-joined" [user_id sock])).
    assert (E : add_member (add_member a sock (JStr r)) sock (JStr r)
                = add_member a sock (JStr r)).
    { unfold add_member at 1.
      assert (M : mem_sid sock (room_sids (add_member a sock (JStr r)) (JStr r)) = true)
        by (apply mem_sid_In; now apply room_sids_JStr).
      now rewrite M. }
    rewrite E. reflexivity.
Qed.

(** C, connected and in no room yet, joins "demo1": A and B are told. *)
Lemma join_room_adds_member_witness :
  let a := on_connection "C" Demo.two_in_room in
  exists a' ds,
    handle "join-room" "C" (JStr "demo1") a = Some (a', ds) /\
    In (JStr "demo1", "C") a' /\ recipients ds = ["A"; "B"].
Proof.
  intros a. eexists. eexists. split; [reflexivity|]. split; [|reflexivity].
  refine (proj1 (join_room_adds_member a "C" "demo1" _ _ _ eq_refl)).
  unfold connected, a. simpl. do 4 right. left. reflexivity.
Defined.

Lemma leave_all_In a sock room s :
  In (room, s) (leave_all a sock) <-> In (room, s) a /\ s <> sock.
Proof.
  unfold leave_all. rewrite filter_In. simpl.
  rewrite negb_true_iff. split; intros [H1 H2]; (split; [exact H1|]).
  - now apply String.eqb_neq.
  - now apply String.eqb_neq.
Qed.

Lemma broadcast_all a s : In s (broadcast a [] []) <-> exists room, In (room, s) a.
Proof.
  unfold broadcast, all_sids. simpl. rewrite nodup_In, filter_In, nodup_In, in_map_iff.
  split.
  - intros [([room s'] & Hs & Hin) _]. simpl in Hs. subst s'. now exists room.
  - intros (room & Hin). split; [|reflexivity]. now exists (room, s).
Qed.

(** Whoever receives a delivery has a membership. *)
Lemma handle_recipient_member ev sock data a a' ds d :
  handle ev sock data a = Some (a', ds) -> In d ds ->
  exists room, In (room, recipient d) a'.
Proof.
  unfold handle, on_join_room, on_start_draw, on_drawing, on_end_draw,
    on_cursor_move, on_start_shape, on_drawing_shape, on_end_shape,
    on_clear_canvas, on_clear, on_draw_text, on_undo, on_redo, forward.
  repeat match goal with
         | |- context [String.eqb ev ?s] => destruct (String.eqb ev s)
         end;
    destruct (prop data "roomId"); destruct (to_string_ok data);
    intros H Hd; inversion H; subst;
    try contradiction;
    apply socket_to_emit_payload in Hd as (_ & _ & Hin);
    now apply broadcast_member in Hin.
Qed.

(** X5.  When a socket disconnects it is left in no room, every other
    membership stays, the "user-left" notice with its id goes once to every
    socket that is still connected, whatever rooms it is in, and nothing
    that another socket sends afterwards is delivered to it. *)
Theorem disconnect_leaves_all a sock a' ds :
  on_disconnect sock a = Some (a', ds) ->
  (forall room, ~ In (room, sock) a') /\
  (forall room s, s <> sock -> (In (room, s) a' <-> In (room, s) a)) /\
  List.NoDup (recipients ds) /\
  (forall s, In s (recipients ds) <-> s <> sock /\ exists room, In (room, s) a) /\
  (forall d, In d ds -> event d = "user-left" /\ args d = [user_id sock]) /\
  (forall ev sock' data a'' ds' d,
      sock' <> sock -> handle ev sock' data a' = Some (a'', ds') -> In d ds' ->
      recipient d <> sock).
Proof.
  unfold on_disconnect. intros H. injection H as <- <-.
  split; [|split; [|split; [|split; [|split]]]].
  - intros room Hin. apply leave_all_In in Hin as [_ Hn]. now apply Hn.
  - intros room s Hne. rewrite leave_all_In. tauto.
  - unfold recipients, io_emit. rewrite map_map. simpl. rewrite map_id.
    apply broadcast_NoDup.
  - intros s. unfold recipients, io_emit. rewrite map_map. simpl. rewrite map_id.
    rewrite broadcast_all. split.
    + intros (room & Hin). apply leave_all_In in Hin as [Hin Hne].
      split; [exact Hne | now exists room].
    + intros (Hne & room & Hin). exists room. now apply leave_all_In.
  - intros d Hd. unfold io_emit in Hd. apply in_map_iff in Hd as (s & <- & _).
    now split.
  - intros ev sock' data a'' ds' d Hne Hh Hd Heq.
    destruct (handle_recipient_member _ _ _ _ _ _ _ Hh Hd) as (room & Hin).
    rewrite Heq in Hin.
    apply handle_adapter in Hh as [-> | ->].
    + apply leave_all_In in Hin as [_ Hn]. now apply Hn.
    + apply join_In in Hin as [Hin | Hin]; [|congruence].
      apply leave_all_In in Hin as [_ Hn]. now apply Hn.
Qed.

(** A disconnects: B is told, and B's later "drawing" reaches nobody. *)
Lemma disconnect_leaves_all_witness :
  exists a' ds,
    on_disconnect "A" Demo.two_in_room = Some (a', ds) /\
    recipients ds = ["B"] /\
    (forall room, ~ In (room, "A") a').
Proof.
  eexists. eexists. split; [reflexivity|]. split; [reflexivity|].
  exact (proj1 (disconnect_leaves_all Demo.two_in_room "A" _ _ eq_refl)).
Defined.

End RelayMore.

(* ===================================================================== *)
(** ** More on the client: what its handlers keep and never do *)
(* ===================================================================== *)

Module ClientMore.
Import Canvas Client Session.

Lemma isDrawingRef_saveCanvas st : isDrawingRef (saveCanvas st) = isDrawingRef st.
Proof. unfold saveCanvas. destruct (canvasRef st); reflexivity. Qed.

Lemma ctxRef_saveCanvas' st : ctxRef (saveCanvas st) = ctxRef st.
Proof. unfold saveCanvas. destruct (canvasRef st); reflexivity. Qed.

Lemma emitted_saveCanvas st : emitted (saveCanvas st) = emitted st.
Proof. unfold saveCanvas. destruct (canvasRef st); reflexivity. Qed.

Lemma ui_saveCanvas_room st : roomId (ui (saveCanvas st)) = roomId (ui st).
Proof. unfold saveCanvas. destruct (canvasRef st); reflexivity. Qed.

Lemma emitted_handleUndo st : emitted (handleUndo st) = emitted st.
Proof.
  unfold handleUndo. destruct (Nat.ltb 1 (length (historyRef st))); [|reflexivity].
  cbn. destruct (last (removelast (historyRef st))); [|reflexivity].
  unfold restoreCanvas. cbn. destruct (canvasRef st), (ctxRef st); reflexivity.
Qed.

Lemma canvasRef_handleUndo st : canvasRef (handleUndo st) = canvasRef st.
Proof.
  unfold handleUndo. destruct (Nat.ltb 1 (length (historyRef st))); [|reflexivity].
  cbn. destruct (last (removelast (historyRef st))); [|reflexivity].
  unfold restoreCanvas. cbn.
  destruct (canvasRef st) eqn:Ec, (ctxRef st) eqn:Ex; cbn; now rewrite ?Ec.
Qed.

Lemma ctxRef_handleUndo st : ctxRef (handleUndo st) = ctxRef st.
Proof.
  unfold handleUndo. destruct (Nat.ltb 1 (length (historyRef st))); [|reflexivity].
  cbn. destruct (last (removelast (historyRef st))); [|reflexivity].
  unfold restoreCanvas. cbn.
  destruct (canvasRef st) eqn:Ec, (ctxRef st) eqn:Ex; cbn; now rewrite ?Ex.
Qed.

Section WithRasteriser.

Variable paint : DrawOp -> Ctx -> Bitmap -> Bitmap.

Lemma emitted_receive ev data st : emitted (receive paint ev data st) = emitted st.
Proof.
  unfold receive, onClear, handleRemoteStart, handleRemoteDrawing,
    handleRemoteEnd, handleRemoteText, clear_surface.
  repeat match goal with
         | |- context [if ?b then _ else _] => destruct b
         end;
    rewrite ?emitted_saveCanvas; reflexivity.
Qed.

(** X6.  Applying an operation that came from the relay never emits
    anything, so nothing can bounce between clients; and apart from a
    "clear", which pushes one snapshot, it touches neither the undo history
    nor the receiver's tool, colour, size or text input. *)
Theorem remote_never_echoes ev data st :
  emitted (receive paint ev data st) = emitted st /\
  isDrawingRef (receive paint ev data st) = isDrawingRef st /\
  (ev <> "clear" ->
   historyRef (receive paint ev data st) = historyRef st /\
   ui (receive paint ev data st) = ui st).
Proof.
  unfold receive.
  destruct (String.eqb_spec ev "clear") as [-> | Hne].
  - unfold onClear. destruct (negb _).
    + repeat split; intros; congruence.
    + rewrite emitted_saveCanvas, isDrawingRef_saveCanvas.
      unfold clear_surface. destruct (ctxRef st); repeat split; intros; congruence.
  - unfold handleRemoteStart, handleRemoteDrawing, handleRemoteEnd, handleRemoteText.
    destruct (negb (joined (ui st))); [now repeat split|].
    repeat match goal with
           | |- context [String.eqb ev ?s] => destruct (String.eqb ev s)
           end;
      destruct (foreign data st); now repeat split.
Qed.

Ltac silent := exists []; split; [now rewrite app_nil_r | constructor].

Ltac branches :=
  repeat match goal with
         | |- context [if ?b then _ else _] => destruct b
         end.

Lemma step_emitted ev st :
  ev <> SocketConnect ->
  exists new,
    emitted (step paint ev st) = emitted st ++ new /\
    Forall (fun m => In (fst m) client_events /\
                     named_room m = JStr (roomId (ui st))) new.
Proof.
  intros Hev. destruct ev; cbn [step].
  - destruct (joined (ui st)); [|silent].
    unfold handlePointerDown. destruct (negb (button e =? 0)); [silent|].
    destruct (tool_eqb (tool (ui st)) TEXT); [silent|].
    eexists [_]. split.
    + destruct (is_shape (tool (ui st))); reflexivity.
    + constructor; [|constructor]. split; [cbn; tauto | reflexivity].
  - destruct (joined (ui st)); [|silent].
    unfold handlePointerMove. destruct (negb (isDrawingRef st)); [silent|].
    eexists [_]. split.
    + destruct (is_shape (tool (ui st))); reflexivity.
    + constructor; [|constructor]. split; [cbn; tauto | reflexivity].
  - destruct (joined (ui st)); [|silent].
    unfold stopDrawing. destruct (negb (isDrawingRef st)); [silent|].
    eexists [_]. split.
    + rewrite emitted_saveCanvas. reflexivity.
    + constructor; [|constructor]. split; [cbn; tauto | reflexivity].
  - exists []. split; [rewrite app_nil_r; apply emitted_receive | constructor].
  - destruct (joined (ui st)); [|silent].
    exists []. split; [rewrite app_nil_r; apply emitted_handleUndo | constructor].
  - destruct (joined (ui st)); [|silent].
    unfold clearBoard. eexists [_]. split.
    + rewrite emitted_saveCanvas. cbn [emit emitted set_emitted on_ui].
      unfold clear_surface. destruct (ctxRef (saveCanvas st));
        cbn [emitted on_canvas set_canvasRef]; rewrite emitted_saveCanvas; reflexivity.
    + constructor; [|constructor]. split; [cbn; tauto|].
      cbn. f_equal. unfold clear_surface.
      destruct (ctxRef (saveCanvas st)); cbn; apply ui_saveCanvas_room.
  - exists []. split; [|constructor]. rewrite app_nil_r.
    unfold resizeCanvas. destruct (canvasRef st); reflexivity.
  - destruct (joined (ui st)); [|silent].
    unfold textKeyDown. destruct (_ && _ && _ && _)%bool; [|silent].
    destruct (canvasRef st) eqn:Ec; [|silent]. destruct (ctxRef st); [|silent].
    eexists [_]. split.
    + cbn. unfold saveCanvas. cbn. rewrite Ec. reflexivity.
    + constructor; [|constructor]. split; [cbn; tauto | reflexivity].
  - unfold selectTool. branches; silent.
  - silent.
  - silent.
  - silent.
  - branches; silent.
  - silent.
  - destruct (joined (ui st)); [silent|].
    unfold handleJoin. destruct (negb (nonempty (roomId (ui st)))); [silent|].
    destruct (connected st); [|silent].
    eexists [_]. split.
    + cbn. destruct (canvasRef st); reflexivity.
    + constructor; [|constructor]. split; [cbn; tauto | reflexivity].
  - unfold image_onload. destruct (loading st !! n); silent.
  - now contradiction Hev.
  - silent.
Qed.

Lemma emitted_join_now room st :
  emitted (join_now room st) = emitted st ++ [("join-room", JStr room)].
Proof. unfold join_now. cbn. now destruct (canvasRef st). Qed.

Lemma ui_join_now room st : ui (join_now room st) = setJoined true (ui st).
Proof. unfold join_now. cbn. now destruct (canvasRef st). Qed.

Lemma connect_emitted st :
  emitted (onConnect st)
  = emitted st ++ map (fun room => ("join-room", JStr room)) (connectHandlers st).
Proof.
  unfold onConnect.
  change (emitted st) with (emitted (set_connectHandlers [] (set_connected true st))).
  generalize (set_connectHandlers [] (set_connected true st)).
  induction (connectHandlers st) as [|room l IH]; intros s; simpl.
  - now rewrite app_nil_r.
  - rewrite IH, emitted_join_now, <- app_assoc. reflexivity.
Qed.

Lemma Event_connect_dec (ev : Event) : {ev = SocketConnect} + {ev <> SocketConnect}.
Proof. destruct ev; first [left; reflexivity | right; discriminate]. Qed.

Lemma onConnect_fields st :
  connectHandlers (onConnect st) = [] /\
  roomId (ui (onConnect st)) = roomId (ui st).
Proof.
  apply (HistoryProofs.onConnect_inv
           (fun s => connectHandlers s = [] /\ roomId (ui s) = roomId (ui st))).
  - intros room s [H1 H2]. rewrite ui_join_now. split; [|exact H2].
    unfold join_now. cbn. destruct (canvasRef s); exact H1.
  - split; reflexivity.
Qed.

Lemma step_emitted_names ev st :
  exists new,
    emitted (step paint ev st) = emitted st ++ new /\
    Forall (fun m => In (fst m) client_events) new.
Proof.
  destruct (Event_connect_dec ev) as [-> | Hev].
  - eexists. split; [apply connect_emitted|].
    apply List.Forall_forall. intros m Hm. apply in_map_iff in Hm as (room & <- & _).
    cbn. tauto.
  - destruct (step_emitted ev st Hev) as (new & E & Hnew).
    exists new. split; [exact E|].
    eapply Forall_impl; [exact Hnew|]. intros m [Hm _]. exact Hm.
Qed.



(** X7.  Whatever happens to the component, what it hands to the socket is
    only appended to, and every new message is a "join-room", "start-draw",
    "drawing", "end-draw", "clear" or "draw-text" (never an "undo", "redo",
    "cursor-move", shape event or "clear-canvas").  Every message that is
    not sent by the socket's "connect" names the room the component holds at
    that moment.  A Join pressed while the socket is not connected sends
    nothing: it leaves a handler that holds the room id of that moment, and
    "connect" sends one "join-room" for each waiting handler, with the room
    id the handler holds, whatever the component holds by then: after
    typing "a", pressing Join, typing "b" and connecting, the component
    has joined room "a" and holds "b". *)
Theorem emissions_name_room ev st :
  (exists new,
      emitted (step paint ev st) = emitted st ++ new /\
      Forall (fun m => In (fst m) client_events) new /\
      (ev <> SocketConnect ->
       Forall (fun m => named_room m = JStr (roomId (ui st))) new)) /\
  (joined (ui st) = false -> connected st = false -> roomId (ui st) <> "" ->
   emitted (step paint Join st) = emitted st /\
   connectHandlers (step paint Join st) = connectHandlers st ++ [roomId (ui st)]) /\
  (emitted (step paint SocketConnect st)
   = emitted st ++ map (fun room => ("join-room", JStr room)) (connectHandlers st) /\
   connectHandlers (step paint SocketConnect st) = [] /\
   roomId (ui (step paint SocketConnect st)) = roomId (ui st)) /\
  (forall evs,
      Forall (fun m => In (fst m) client_events) (emitted st) ->
      Forall (fun m => In (fst m) client_events) (emitted (run paint evs st))) /\
  (let st' := run paint [TypeRoom "a"; Join; TypeRoom "b"; SocketConnect] initial in
   emitted st' = [("join-room", JStr "a")] /\
   roomId (ui st') = "b" /\ joined (ui st') = true).
Proof.
  split; [|split; [|split; [|split]]].
  - destruct (Event_connect_dec ev) as [-> | Hev].
    + destruct (step_emitted_names SocketConnect st) as (new & E & Hnew).
      exists new. split; [exact E|]. split; [exact Hnew|]. now intros [].
    + destruct (step_emitted ev st Hev) as (new & E & Hnew).
      exists new. split; [exact E|]. split.
      * eapply Forall_impl; [exact Hnew|]. intros m [Hm _]. exact Hm.
      * intros _. eapply Forall_impl; [exact Hnew|]. intros m [_ Hm]. exact Hm.
  - intros Hj Hc Hr. cbn [step]. unfold handleJoin, nonempty.
    apply String.eqb_neq in Hr. rewrite Hj, Hr, Hc. cbn. split; reflexivity.
  - cbn [step]. split; [apply connect_emitted|].
    apply (onConnect_fields st).
  - intros evs. revert st. induction evs as [|e evs IH]; intros st H; [exact H|].
    simpl. apply IH. destruct (step_emitted_names e st) as (new & -> & Hnew).
    apply Forall_app. split; [exact H | exact Hnew].
  - repeat split.
Qed.

(** X8.  A stroke ends once.  Releasing the pointer while drawing emits one
    "end-draw" and pushes one snapshot; a second release (the window's
    "pointerup" after the canvas's "pointerleave", say) changes nothing, and
    neither do pointer moves until the next press. *)
Theorem stroke_ends_once e st :
  stopDrawing (stopDrawing st) = stopDrawing st /\
  handlePointerMove paint e (stopDrawing st) = stopDrawing st /\
  (isDrawingRef st = true ->
   emitted (stopDrawing st) =
     emitted st ++
       [("end-draw",
         JObj [("roomId", JStr (roomId (ui st)));
               ("tool", JStr (tool_name (tool (ui st))))])] /\
   historyRef (stopDrawing st) =
     match canvasRef st with
     | Some c => push_bounded (toDataURL (closePath c)) (historyRef st)
     | None => historyRef st
     end).
Proof.
  assert (Hd : isDrawingRef (stopDrawing st) = false).
  { unfold stopDrawing. destruct (isDrawingRef st) eqn:E; cbn [negb]; [|exact E].
    now rewrite isDrawingRef_saveCanvas. }
  split; [|split].
  - unfold stopDrawing at 1. now rewrite Hd.
  - unfold handlePointerMove. now rewrite Hd.
  - intros H. unfold stopDrawing. rewrite H. cbn [negb]. split.
    + now rewrite emitted_saveCanvas.
    + rewrite HistoryProofs.historyRef_saveCanvas. cbn.
      destruct (canvasRef st); reflexivity.
Qed.

Lemma undo_button_saveCanvas st : undo_button_ok st -> undo_button_ok (saveCanvas st).
Proof.
  unfold undo_button_ok, saveCanvas. destruct (canvasRef st); [|auto].
  intros _. reflexivity.
Qed.

Lemma undo_button_handleUndo st : undo_button_ok st -> undo_button_ok (handleUndo st).
Proof.
  intros H.
  unfold handleUndo. destruct (Nat.ltb 1 (length (historyRef st))); [|exact H].
  unfold undo_button_ok.
  cbn. destruct (last (removelast (historyRef st))); [|reflexivity].
  now rewrite HistoryProofs.historyRef_restoreCanvas.
Qed.

Lemma undo_button_same st st' :
  undo_button_ok st ->
  canUndo (ui st') = canUndo (ui st) -> historyRef st' = historyRef st ->
  undo_button_ok st'.
Proof. unfold undo_button_ok. intros H -> ->. exact H. Qed.

Lemma undo_button_join_now room st :
  undo_button_ok st -> undo_button_ok (join_now room st).
Proof.
  intros H. eapply undo_button_same; [exact H | now rewrite ui_join_now |].
  apply HistoryProofs.historyRef_join_now.
Qed.

Lemma undo_button_step ev st : undo_button_ok st -> undo_button_ok (step paint ev st).
Proof.
  intros H. destruct ev; cbn [step].
  - unfold handlePointerDown. branches; try exact H;
      (eapply undo_button_same; [exact H | reflexivity | reflexivity]).
  - unfold handlePointerMove. branches; try exact H;
      (eapply undo_button_same; [exact H | reflexivity | reflexivity]).
  - unfold stopDrawing. branches; try exact H. apply undo_button_saveCanvas.
    eapply undo_button_same; [exact H | reflexivity | reflexivity].
  - unfold receive, onClear, handleRemoteStart, handleRemoteDrawing,
      handleRemoteEnd, handleRemoteText, clear_surface.
    branches; try exact H; try apply undo_button_saveCanvas;
      (eapply undo_button_same; [exact H | reflexivity | reflexivity]).
  - destruct (joined (ui st)); [now apply undo_button_handleUndo | exact H].
  - destruct (joined (ui st)); [|exact H].
    unfold clearBoard. apply undo_button_saveCanvas.
    assert (Hs : undo_button_ok (saveCanvas st)) by now apply undo_button_saveCanvas.
    unfold clear_surface. branches;
      (eapply undo_button_same; [exact Hs | reflexivity | reflexivity]).
  - unfold resizeCanvas. destruct (canvasRef st); [|exact H]. reflexivity.
  - destruct (joined (ui st)); [|exact H].
    unfold textKeyDown. destruct (_ && _ && _ && _)%bool; [|exact H].
    destruct (canvasRef st) eqn:Ec; [|exact H]. destruct (ctxRef st); [|exact H].
    unfold undo_button_ok. cbn. unfold saveCanvas. cbn. rewrite Ec. reflexivity.
  - unfold selectTool. branches;
      (eapply undo_button_same; [exact H | reflexivity | reflexivity]).
  - exact H.
  - exact H.
  - exact H.
  - branches; exact H.
  - exact H.
  - unfold handleJoin. branches; try exact H. now apply undo_button_join_now.
  - unfold image_onload. destruct (loading st !! n); exact H.
  - apply HistoryProofs.onConnect_inv; [intros room s; apply undo_button_join_now | exact H].
  - exact H.
Qed.

(** X9.  The Undo button follows the history: in every state the component
    reaches from its initial one, [canUndo] is true exactly when the history
    holds more than one snapshot, and every event keeps it so. *)
Theorem undo_button_tracks_history ev evs st :
  undo_button_ok st ->
  undo_button_ok (step paint ev st) /\
  undo_button_ok (run paint evs st) /\
  undo_button_ok (run paint evs initial).
Proof.
  assert (Hrun : forall l s, undo_button_ok s -> undo_button_ok (run paint l s)).
  { induction l as [|x l IH]; intros s Hs; [exact Hs|].
    simpl. apply IH. now apply undo_button_step. }
  intros H. split; [now apply undo_button_step|]. split; [now apply Hrun|].
  apply Hrun. reflexivity.
Qed.

Lemma mounted_join_now room st : mounted (join_now room st).
Proof.
  unfold mounted, join_now. cbn.
  destruct (canvasRef st) eqn:E; cbn; (split; [reflexivity|]); intros _;
    [rewrite E|]; discriminate.
Qed.

Lemma mounted_step ev st : mounted st -> mounted (step paint ev st).
Proof.
  intros H. destruct (Event_connect_dec ev) as [-> | Hev].
  { cbn [step]. apply HistoryProofs.onConnect_inv;
      [intros room s _; apply mounted_join_now | exact H]. }
  revert H. unfold mounted. intros [H1 H2].
  destruct ev; cbn [step]; try (exfalso; apply Hev; reflexivity);
    unfold handlePointerDown, handlePointerMove, stopDrawing, receive, onClear,
      handleRemoteStart, handleRemoteDrawing, handleRemoteEnd, handleRemoteText,
      clear_surface, handleUndo, clearBoard, resizeCanvas, textKeyDown,
      selectTool, handleJoin, join_now, onDisconnect, image_onload,
      restoreCanvas, saveCanvas, clear_surface, on_canvas, emit;
    cbn;
    repeat match goal with
           | |- context [match canvasRef st with _ => _ end] =>
               destruct (canvasRef st) eqn:?; cbn
           | |- context [if ctxRef st then _ else _] =>
               destruct (ctxRef st) eqn:?; cbn
           | |- context [if joined (ui st) then _ else _] =>
               destruct (joined (ui st)) eqn:?; cbn
           | |- context [_ <$> canvasRef st] =>
               destruct (canvasRef st) eqn:?; cbn
           | |- context [if ?b then _ else _] => destruct b; cbn
           | |- context [match ?o with Some _ => _ | None => _ end] =>
               destruct o; cbn
           end;
    split; intros; try congruence; try tauto; try discriminate;
    try (now apply H2); try (now apply H1); intuition congruence.
Qed.

(** X10.  From its initial state on, the component never holds a context
    without a canvas element, and once it has joined a room it holds both:
    the handlers, which use them without a test, never meet [null]. *)
Theorem canvas_mounted_when_joined ev evs st :
  mounted st ->
  mounted (step paint ev st) /\
  mounted (run paint evs st) /\
  mounted (run paint evs initial).
Proof.
  assert (Hrun : forall l s, mounted s -> mounted (run paint l s)).
  { induction l as [|x l IH]; intros s Hs; [exact Hs|].
    simpl. apply IH. now apply mounted_step. }
  intros H. split; [now apply mounted_step|]. split; [now apply Hrun|].
  apply Hrun. split; discriminate.
Qed.

Lemma run_app l1 l2 st : run paint (l1 ++ l2) st = run paint l2 (run paint l1 st).
Proof. unfold run. apply fold_left_app. Qed.

Lemma replay_app l1 l2 st :
  replay paint (l1 ++ l2) st = replay paint l2 (replay paint l1 st).
Proof. unfold replay. apply fold_left_app. Qed.

Lemma pointer_down_facts e st :
  button e = 0 -> tool_eqb (tool (ui st)) TEXT = false ->
  let st' := handlePointerDown paint e st in
  emitted st' =
    emitted st ++
      [("start-draw",
        stroke_payload (roomId (ui st)) (fst (point_of e)) (snd (point_of e))
          (stroke_color (ui st)) (stroke_size (ui st)) (tool (ui st)))] /\
  ui st' = ui st /\ isDrawingRef st' = true /\ historyRef st' = historyRef st /\
  canvasRef st' =
    (fun canvas =>
       on_ctx (set_lineWidth (JNum (stroke_size (ui st))))
         (on_ctx (set_strokeStyle (JStr (stroke_color (ui st))))
            (moveTo (JNum (fst (point_of e))) (JNum (snd (point_of e)))
               (beginPath canvas)))) <$> canvasRef st.
Proof.
  intros Hb Ht. unfold handlePointerDown. rewrite Hb, Ht. cbn [Z.eqb negb].
  destruct (is_shape (tool (ui st))); cbn; repeat split.
Qed.

Lemma pointer_move_facts e st :
  isDrawingRef st = true ->
  let st' := handlePointerMove paint e st in
  emitted st' = emitted st ++ [drawing_message (ui st) e] /\
  ui st' = ui st /\ isDrawingRef st' = true /\ historyRef st' = historyRef st.
Proof.
  intros Hd. unfold handlePointerMove. rewrite Hd. cbn [negb].
  destruct (is_shape (tool (ui st))); cbn; repeat split; exact Hd.
Qed.

Lemma moves_facts es : forall st,
  joined (ui st) = true -> isDrawingRef st = true ->
  let st' := run paint (map PointerMove es) st in
  emitted st' = emitted st ++ map (drawing_message (ui st)) es /\
  ui st' = ui st /\ isDrawingRef st' = true /\ historyRef st' = historyRef st.
Proof.
  induction es as [|e es IH]; intros st Hj Hd.
  - cbn. rewrite app_nil_r. repeat split. exact Hd.
  - cbn [map run fold_left step]. rewrite Hj.
    destruct (pointer_move_facts e st Hd) as (He & Hu & Hd' & Hh).
    destruct (IH (handlePointerMove paint e st)) as (He2 & Hu2 & Hd2 & Hh2).
    { now rewrite Hu. }
    { exact Hd'. }
    unfold run in *. cbv zeta in *.
    rewrite He2, Hu2, Hd2, Hh2, He, Hu, Hh, <- app_assoc. repeat split.
Qed.

Lemma stop_facts st :
  isDrawingRef st = true ->
  emitted (stopDrawing st) =
    emitted st ++
      [("end-draw",
        JObj [("roomId", JStr (roomId (ui st)));
              ("tool", JStr (tool_name (tool (ui st))))])] /\
  isDrawingRef (stopDrawing st) = false /\
  canvasRef (stopDrawing st) = closePath <$> canvasRef st /\
  historyRef (stopDrawing st) =
    match canvasRef (stopDrawing st) with
    | Some c' => push_bounded (toDataURL c') (historyRef st)
    | None => historyRef st
    end.
Proof.
  intros Hd. unfold stopDrawing. rewrite Hd. cbn [negb].
  rewrite emitted_saveCanvas, isDrawingRef_saveCanvas,
    HistoryProofs.canvasRef_saveCanvas, HistoryProofs.historyRef_saveCanvas.
  cbn. destruct (canvasRef st); repeat split.
Qed.

Lemma gesture_facts e0 es st :
  joined (ui st) = true -> button e0 = 0 -> tool_eqb (tool (ui st)) TEXT = false ->
  let st' := run paint (gesture e0 es) st in
  emitted st' = emitted st ++ gesture_messages (ui st) e0 es /\
  isDrawingRef st' = false /\
  historyRef st' =
    match canvasRef st' with
    | Some c' => push_bounded (toDataURL c') (historyRef st)
    | None => historyRef st
    end.
Proof.
  intros Hj Hb Ht. unfold gesture.
  change (PointerDown e0 :: map PointerMove es ++ [PointerStop])
    with ([PointerDown e0] ++ map PointerMove es ++ [PointerStop]).
  rewrite !run_app.
  assert (E0 : run paint [PointerDown e0] st = handlePointerDown paint e0 st)
    by (cbn; now rewrite Hj).
  rewrite E0.
  destruct (pointer_down_facts e0 st Hb Ht) as (He & Hu & Hd & Hh & _).
  set (s1 := handlePointerDown paint e0 st) in *.
  destruct (moves_facts es s1) as (He2 & Hu2 & Hd2 & Hh2);
    [now rewrite Hu | exact Hd |].
  set (s2 := run paint (map PointerMove es) s1) in *.
  assert (E2 : run paint [PointerStop] s2 = stopDrawing s2)
    by (cbn; now rewrite Hu2, Hu, Hj).
  rewrite E2.
  destruct (stop_facts s2 Hd2) as (He3 & Hd3 & _ & Hh3).
  split; [|split; [exact Hd3|]].
  - rewrite He3, He2, He, Hu2, Hu. unfold gesture_messages, drawing_message.
    rewrite <- !app_assoc. reflexivity.
  - rewrite Hh3, Hh2, Hh. reflexivity.
Qed.

(** X11.  One stroke gesture with any tool but the text tool (press with
    the primary button, any number of moves, release) emits, in this order,
    one "start-draw", one "drawing" per move and one "end-draw", all for the
    component's room; it ends with the drawing flag down and has pushed
    exactly one snapshot, that of the canvas as the gesture left it. *)
Theorem gesture_protocol e0 es st :
  joined (ui st) = true ->
  button e0 = 0 ->
  tool (ui st) <> TEXT ->
  let st' := run paint (gesture e0 es) st in
  emitted st' = emitted st ++ gesture_messages (ui st) e0 es /\
  length (gesture_messages (ui st) e0 es) = (2 + length es)%nat /\
  isDrawingRef st' = false /\
  historyRef st' =
    match canvasRef st' with
    | Some c' => push_bounded (toDataURL c') (historyRef st)
    | None => historyRef st
    end.
Proof.
  intros Hj Hb Ht.
  assert (Ht' : tool_eqb (tool (ui st)) TEXT = false)
    by (destruct (tool (ui st)); try reflexivity; contradiction).
  destruct (gesture_facts e0 es st Hj Hb Ht') as (H1 & H2 & H3).
  cbv zeta. split; [exact H1|]. split; [|split; [exact H2 | exact H3]].
  unfold gesture_messages. simpl. rewrite length_app, length_map. simpl. lia.
Qed.

Lemma foreign_same_room data stB r :
  roomId (ui stB) = r -> truthy data = true -> get data "roomId" = JStr r ->
  foreign data stB = false.
Proof.
  intros Hr Ht Hg. unfold foreign. rewrite Ht, Hg, Hr. cbn.
  now rewrite String.eqb_refl.
Qed.

Lemma ui_handleRemoteDrawing data st : ui (handleRemoteDrawing paint data st) = ui st.
Proof. unfold handleRemoteDrawing. now destruct (foreign data st). Qed.

Lemma receive_start data st :
  joined (ui st) = true ->
  receive paint "start-draw" data st = handleRemoteStart data st.
Proof. intros H. unfold receive. cbn. now rewrite H. Qed.

Lemma receive_drawing data st :
  joined (ui st) = true ->
  receive paint "drawing" data st = handleRemoteDrawing paint data st.
Proof. intros H. unfold receive. cbn. now rewrite H. Qed.

Lemma receive_end data st :
  joined (ui st) = true ->
  receive paint "end-draw" data st = handleRemoteEnd data st.
Proof. intros H. unfold receive. cbn. now rewrite H. Qed.

Lemma or_else_color col : col <> "" -> or_else (JStr col) (JStr "#000") = JStr col.
Proof.
  intros H. unfold or_else. cbn. apply String.eqb_neq in H. now rewrite H.
Qed.

Lemma or_else_size n : n <> 0 -> or_else (JNum n) (JNum 3) = JNum n.
Proof.
  intros H. unfold or_else. cbn. apply Z.eqb_neq in H. now rewrite H.
Qed.

(** The sender's move and the receiver's "drawing" do the same to a canvas. *)
Lemma move_lockstep e sA sB :
  isDrawingRef sA = true -> tool (ui sA) = BRUSH ->
  color (ui sA) <> "" -> size (ui sA) <> 0 ->
  roomId (ui sB) = roomId (ui sA) ->
  canvasRef sB = canvasRef sA ->
  canvasRef (handleRemoteDrawing paint (snd (drawing_message (ui sA) e)) sB)
  = canvasRef (handlePointerMove paint e sA).
Proof.
  intros Hd Ht Hc Hs Hr Hcv.
  unfold handleRemoteDrawing, handlePointerMove.
  rewrite (foreign_same_room _ sB (roomId (ui sA))) by (auto; reflexivity).
  rewrite Hd, Ht. cbn [negb is_shape].
  cbn [canvasRef on_canvas set_canvasRef emit set_emitted].
  rewrite Hcv. destruct (canvasRef sA) as [c|]; [|reflexivity].
  cbn. unfold draw_point, stroke_color, stroke_size. rewrite Ht. cbn.
  rewrite (or_else_color _ Hc), (or_else_size _ Hs). reflexivity.
Qed.

Lemma moves_lockstep es : forall sA sB,
  joined (ui sA) = true -> joined (ui sB) = true ->
  isDrawingRef sA = true -> tool (ui sA) = BRUSH ->
  color (ui sA) <> "" -> size (ui sA) <> 0 ->
  roomId (ui sB) = roomId (ui sA) ->
  canvasRef sB = canvasRef sA ->
  let sA' := run paint (map PointerMove es) sA in
  let sB' := replay paint (map (drawing_message (ui sA)) es) sB in
  canvasRef sB' = canvasRef sA' /\ ui sB' = ui sB.
Proof.
  induction es as [|e es IH]; intros sA sB HjA HjB Hd Ht Hc Hs Hr Hcv.
  - now cbn.
  - cbn [map run replay fold_left step fst snd]. rewrite HjA.
    change (fst (drawing_message (ui sA) e)) with "drawing".
    rewrite (receive_drawing _ sB HjB).
    destruct (pointer_move_facts e sA Hd) as (_ & Hu & Hd' & _).
    pose proof (move_lockstep e sA sB Hd Ht Hc Hs Hr Hcv) as Hstep.
    pose proof (ui_handleRemoteDrawing (snd (drawing_message (ui sA) e)) sB) as HuB.
    specialize (IH (handlePointerMove paint e sA)
                  (handleRemoteDrawing paint (snd (drawing_message (ui sA) e)) sB)).
    cbv zeta in IH. rewrite Hu, HuB in IH.
    destruct IH as [IH1 IH2]; auto.
Qed.

(** X12.  A brush stroke is replicated exactly.  If sender and receiver
    are joined to the same room and hold the same canvas, and the sender
    draws one gesture with the brush (its colour not empty, its size not
    zero), then the messages the sender emits are those of the gesture, and
    the receiver that applies them in order ends with the very canvas the
    sender ends with: same path, same stroke colour and width, same
    pixels. *)
Theorem brush_stroke_replicates e0 es stA stB :
  joined (ui stA) = true -> joined (ui stB) = true ->
  roomId (ui stB) = roomId (ui stA) ->
  tool (ui stA) = BRUSH -> color (ui stA) <> "" -> size (ui stA) <> 0 ->
  button e0 = 0 ->
  canvasRef stB = canvasRef stA ->
  emitted (run paint (gesture e0 es) stA)
    = emitted stA ++ gesture_messages (ui stA) e0 es /\
  canvasRef (replay paint (gesture_messages (ui stA) e0 es) stB)
    = canvasRef (run paint (gesture e0 es) stA).
Proof.
  intros HjA HjB Hr Ht Hc Hs Hb Hcv.
  assert (Ht' : tool_eqb (tool (ui stA)) TEXT = false) by now rewrite Ht.
  split; [exact (proj1 (gesture_facts e0 es stA HjA Hb Ht'))|].
  unfold gesture, gesture_messages.
  change (PointerDown e0 :: map PointerMove es ++ [PointerStop])
    with ([PointerDown e0] ++ map PointerMove es ++ [PointerStop]).
  rewrite !run_app.
  match goal with
  | |- canvasRef (replay paint (?m0 :: ?ms ++ ?me) stB) = _ =>
      change (m0 :: ms ++ me) with ([m0] ++ ms ++ me)
  end.
  rewrite !replay_app.
  assert (E0 : run paint [PointerDown e0] stA = handlePointerDown paint e0 stA)
    by (cbn; now rewrite HjA).
  rewrite E0.
  destruct (pointer_down_facts e0 stA Hb Ht') as (_ & Hu & Hd & _ & Hcv1).
  set (a1 := handlePointerDown paint e0 stA) in *.
  set (start := stroke_payload (roomId (ui stA)) (point_of e0).1 (point_of e0).2
                  (stroke_color (ui stA)) (stroke_size (ui stA)) (tool (ui stA))).
  assert (B1 : replay paint [("start-draw", start)] stB = handleRemoteStart start stB)
    by (cbn; now rewrite HjB).
  rewrite B1. set (b1 := handleRemoteStart start stB).
  assert (Hub1 : ui b1 = ui stB) by apply DrawingProofs.ui_handleRemoteStart.
  assert (Hcb1 : canvasRef b1 = canvasRef a1).
  { unfold b1, handleRemoteStart.
    rewrite (foreign_same_room _ stB (roomId (ui stA))) by (auto; reflexivity).
    rewrite Hcv1. cbn [canvasRef on_canvas set_canvasRef]. rewrite Hcv.
    destruct (canvasRef stA) as [c|]; [|reflexivity].
    cbn. unfold stroke_color, stroke_size. rewrite Ht. cbn.
    rewrite (or_else_color _ Hc), (or_else_size _ Hs). reflexivity. }
  destruct (moves_lockstep es a1 b1) as [Hcv2 Hub2];
    try (rewrite ?Hu, ?Hub1; assumption).
  rewrite Hu in Hcv2, Hub2.
  destruct (moves_facts es a1) as (_ & Hu2 & Hd2 & _); [now rewrite Hu | exact Hd |].
  set (a2 := run paint (map PointerMove es) a1) in *.
  change (map (fun e => ("drawing",
                         stroke_payload (roomId (ui stA)) (point_of e).1
                           (point_of e).2 (color (ui stA)) (size (ui stA))
                           (tool (ui stA)))) es)
    with (map (drawing_message (ui stA)) es).
  set (b2 := replay paint (map (drawing_message (ui stA)) es) b1) in *.
  assert (E2 : run paint [PointerStop] a2 = stopDrawing a2)
    by (cbn; now rewrite Hu2, Hu, HjA).
  rewrite E2. destruct (stop_facts a2 Hd2) as (_ & _ & Hcv3 & _). rewrite Hcv3.
  unfold replay at 1. cbn [fold_left fst snd].
  rewrite receive_end by now rewrite Hub2, Hub1.
  unfold handleRemoteEnd.
  rewrite (foreign_same_room _ b2 (roomId (ui stA)))
    by (rewrite ?Hub2, ?Hub1; auto; reflexivity).
  cbn [canvasRef on_canvas set_canvasRef]. now rewrite Hcv2.
Qed.

Lemma replay_drawings es : forall u sB c,
  joined (ui sB) = true -> roomId (ui sB) = roomId u -> canvasRef sB = Some c ->
  let sB' := replay paint (map (drawing_message u) es) sB in
  ui sB' = ui sB /\
  exists c',
    canvasRef sB' = Some c' /\
    path (ctx c') =
      path (ctx c) ++
        map (fun e => LineTo (JNum (fst (point_of e))) (JNum (snd (point_of e)))) es.
Proof.
  induction es as [|e es IH]; intros u sB c Hj Hr Hc.
  - cbn. split; [reflexivity|]. exists c. now rewrite app_nil_r.
  - cbn [map replay fold_left fst snd].
    change (fst (drawing_message u e)) with "drawing".
    rewrite (receive_drawing _ sB Hj).
    pose proof (ui_handleRemoteDrawing (snd (drawing_message u e)) sB) as HuB.
    assert (Hc' : exists c1,
               canvasRef (handleRemoteDrawing paint (snd (drawing_message u e)) sB)
                 = Some c1 /\
               path (ctx c1) =
                 path (ctx c) ++
                   [LineTo (JNum (fst (point_of e))) (JNum (snd (point_of e)))]).
    { unfold handleRemoteDrawing.
      rewrite (foreign_same_room _ sB (roomId u)) by (auto; reflexivity).
      cbn. rewrite Hc. cbn. eexists. split; reflexivity. }
    destruct Hc' as (c1 & Hc1 & Hp1).
    destruct (IH u (handleRemoteDrawing paint (snd (drawing_message u e)) sB) c1)
      as (Hu' & c' & Hc2 & Hp2);
      [now rewrite HuB | now rewrite HuB | exact Hc1 |].
    cbv zeta in *. unfold replay in *. split; [now rewrite Hu', HuB|].
    exists c'. split; [exact Hc2|]. rewrite Hp2, Hp1, <- app_assoc. reflexivity.
Qed.

(** X13.  The receiver draws every relayed gesture as a freehand line,
    whatever tool the sender used: after the gesture's messages its path is
    the polyline from the press through every move, closed, so a peer's line,
    rectangle, circle or arrow arrives as the trace of the pointer. *)
Theorem peer_draws_polyline u e0 es stB c :
  joined (ui stB) = true ->
  roomId (ui stB) = roomId u ->
  canvasRef stB = Some c ->
  exists c',
    canvasRef (replay paint (gesture_messages u e0 es) stB) = Some c' /\
    path (ctx c') =
      MoveTo (JNum (fst (point_of e0))) (JNum (snd (point_of e0)))
      :: map (fun e => LineTo (JNum (fst (point_of e))) (JNum (snd (point_of e)))) es
      ++ [ClosePath].
Proof.
  intros Hj Hr Hc. unfold gesture_messages.
  match goal with
  | |- exists _, canvasRef (replay paint (?m0 :: ?ms ++ ?me) stB) = _ /\ _ =>
      change (m0 :: ms ++ me) with ([m0] ++ ms ++ me)
  end.
  rewrite !replay_app.
  set (start := stroke_payload (roomId u) (point_of e0).1 (point_of e0).2
                  (stroke_color u) (stroke_size u) (tool u)).
  assert (B1 : replay paint [("start-draw", start)] stB = handleRemoteStart start stB)
    by (cbn; now rewrite Hj).
  rewrite B1. set (b1 := handleRemoteStart start stB).
  assert (Hub1 : ui b1 = ui stB) by apply DrawingProofs.ui_handleRemoteStart.
  assert (Hc1 : exists c1, canvasRef b1 = Some c1 /\
                  path (ctx c1) =
                    [MoveTo (JNum (fst (point_of e0))) (JNum (snd (point_of e0)))]).
  { unfold b1, handleRemoteStart.
    rewrite (foreign_same_room _ stB (roomId u)) by (auto; reflexivity).
    cbn. rewrite Hc. cbn. eexists. split; reflexivity. }
  destruct Hc1 as (c1 & Hc1 & Hp1).
  destruct (replay_drawings es u b1 c1) as (Hu2 & c2 & Hc2 & Hp2);
    [now rewrite Hub1 | now rewrite Hub1 | exact Hc1 |].
  fold (drawing_message u) in *.
  change (map (fun e => ("drawing",
                         stroke_payload (roomId u) (point_of e).1 (point_of e).2
                           (color u) (size u) (tool u))) es)
    with (map (drawing_message u) es).
  set (b2 := replay paint (map (drawing_message u) es) b1) in *.
  unfold replay at 1. cbn [fold_left fst snd].
  rewrite receive_end by now rewrite Hu2, Hub1.
  unfold handleRemoteEnd.
  rewrite (foreign_same_room _ b2 (roomId u)) by (rewrite ?Hu2, ?Hub1; auto; reflexivity).
  cbn [canvasRef on_canvas set_canvasRef]. rewrite Hc2. cbn.
  eexists. split; [reflexivity|]. cbn. rewrite Hp2, Hp1. reflexivity.
Qed.

(** X14.  A text placement is replicated exactly.  When Enter commits a
    text on the sender, the one message it emits is the "draw-text" with the
    typed text, the position times the pixel ratio, the selected colour and
    four times the size; a receiver joined to the same room and holding the
    same canvas, applying that message, ends with the same canvas. *)
Theorem text_replicates env stA stB c :
  trim (textInput (ui stA)) <> "" ->
  fst (textPosition (ui stA)) <> 0 -> snd (textPosition (ui stA)) <> 0 ->
  canvasRef stA = Some c -> ctxRef stA = true ->
  joined (ui stB) = true -> roomId (ui stB) = roomId (ui stA) ->
  canvasRef stB = canvasRef stA ->
  let sent :=
    text_payload (roomId (ui stA)) (textInput (ui stA))
      (fst (textPosition (ui stA)) * dpr env) (snd (textPosition (ui stA)) * dpr env)
      (color (ui stA)) (size (ui stA) * 4) in
  emitted (textKeyDown paint env "Enter" stA) = emitted stA ++ [("draw-text", sent)] /\
  canvasRef (receive paint "draw-text" sent stB)
    = canvasRef (textKeyDown paint env "Enter" stA).
Proof.
  intros Ht Hx Hy Hc Hctx HjB Hr Hcv sent.
  assert (Hg : (String.eqb "Enter" "Enter" && nonempty (trim (textInput (ui stA)))
                && negb (fst (textPosition (ui stA)) =? 0)
                && negb (snd (textPosition (ui stA)) =? 0))%bool = true).
  { unfold nonempty. apply String.eqb_neq in Ht. rewrite Ht.
    apply Z.eqb_neq in Hx, Hy. now rewrite Hx, Hy. }
  unfold textKeyDown. rewrite Hg, Hc, Hctx. split.
  - cbn. unfold saveCanvas. cbn. rewrite Hc. reflexivity.
  - unfold receive. cbn [String.eqb Ascii.eqb Bool.eqb]. rewrite HjB. cbn [negb].
    unfold handleRemoteText.
    rewrite (foreign_same_room _ stB (roomId (ui stA))) by (auto; reflexivity).
    cbn [canvasRef on_canvas set_canvasRef on_ui emit set_emitted].
    rewrite HistoryProofs.canvasRef_saveCanvas. cbn [canvasRef on_canvas set_canvasRef].
    rewrite Hcv, Hc. reflexivity.
Qed.

(** X15.  Placing a text is local until it is committed.  A press with the
    text tool records the point and opens the placement, without drawing,
    emitting, snapshotting or starting a stroke; choosing any other tool
    then, whatever was typed meanwhile, closes the placement and empties the
    input, after which no key commits anything. *)
Theorem text_placement_is_local e typed t st :
  tool (ui st) = TEXT -> button e = 0 -> t <> TEXT ->
  let placed := handlePointerDown paint e st in
  let dropped := selectTool t (on_ui (setTextInput typed) placed) in
  (textPosition (ui placed) = point_of e /\ isPlacingText (ui placed) = true /\
   canvasRef placed = canvasRef st /\ emitted placed = emitted st /\
   historyRef placed = historyRef st /\ isDrawingRef placed = isDrawingRef st) /\
  (isPlacingText (ui dropped) = false /\ textInput (ui dropped) = "" /\
   showTextMarker (ui dropped) = false /\ tool (ui dropped) = t /\
   forall env key, textKeyDown paint env key dropped = dropped).
Proof.
  intros Ht Hb Hne placed dropped.
  assert (Hp : placed =
               on_ui (fun u => setShowTextMarker true
                                 (setIsPlacingText true (setTextPosition (point_of e) u))) st).
  { unfold placed, handlePointerDown. now rewrite Hb, Ht. }
  assert (Hd : dropped =
               on_ui (fun u => setTextInput ""
                                 (setIsPlacingText false (setShowTextMarker false u)))
                 (on_ui (setTool t) (on_ui (setTextInput typed) placed))).
  { unfold dropped, selectTool. rewrite Hp. cbn. rewrite Ht.
    destruct t; try contradiction; reflexivity. }
  split.
  - rewrite Hp. cbn. repeat split.
  - rewrite Hd. cbn. repeat split.
    intros env key. unfold textKeyDown. cbn.
    now rewrite andb_false_r.
Qed.

(** X16.  Enter twice commits once: after a key press in the text input,
    the same key again changes nothing. *)
Theorem text_commit_once env key st :
  textKeyDown paint env key (textKeyDown paint env key st)
  = textKeyDown paint env key st.
Proof.
  unfold textKeyDown at 2 3.
  destruct (_ && _ && _ && _)%bool eqn:Hg.
  - destruct (canvasRef st) eqn:Hc.
    + destruct (ctxRef st) eqn:Hx.
      * unfold textKeyDown. cbn. now rewrite andb_false_r.
      * unfold textKeyDown. now rewrite Hg, Hc, Hx.
    + unfold textKeyDown. now rewrite Hg, Hc.
  - unfold textKeyDown. now rewrite Hg.
Qed.

Lemma strip_eq back l :
  strip back l =
  match l with
  | a :: r1 =>
      if space1 a then strip back r1
      else
        match r1 with
        | b :: r2 =>
            if (if back then space2 b a else space2 a b) then strip back r2
            else
              match r2 with
              | c :: r3 =>
                  if (if back then space3 c b a else space3 a b c)
                  then strip back r3
                  else l
              | [] => l
              end
        | [] => l
        end
  | [] => []
  end.
Proof. destruct l as [|a [|b [|c r]]]; reflexivity. Qed.

Lemma space2_lead a b : space2 a b = true -> space1 a = false.
Proof.
  unfold space2, space1.
  destruct (Nat.eqb_spec (nat_of_ascii a) 194) as [->|]; [reflexivity | discriminate].
Qed.

Lemma space3_lead a b c :
  space3 a b c = true -> space1 a = false /\ forall b', space2 a b' = false.
Proof.
  unfold space3, space2, space1. intros H.
  assert (Hx : nat_of_ascii a = 225%nat \/ nat_of_ascii a = 226%nat \/
               nat_of_ascii a = 227%nat \/ nat_of_ascii a = 239%nat).
  { rewrite ?orb_true_iff, ?andb_true_iff, ?Nat.eqb_eq in H. lia. }
  destruct Hx as [-> | [-> | [-> | ->]]]; split; reflexivity.
Qed.

Lemma Spaces_app l1 l2 : Session.Spaces l1 -> Session.Spaces l2 -> Session.Spaces (l1 ++ l2).
Proof.
  intros H1 H2. induction H1; simpl; [exact H2 | | | ].
  - now apply Session.spaces_1.
  - now apply Session.spaces_2.
  - now apply Session.spaces_3.
Qed.

Lemma Spaces_strip l : Session.Spaces l -> strip false l = [].
Proof.
  intros H. induction H as [| a l Ha _ IH | a b l Hab _ IH | a b c l Habc _ IH];
    [reflexivity | | | ]; rewrite strip_eq.
  - now rewrite Ha.
  - now rewrite (space2_lead _ _ Hab), Hab.
  - destruct (space3_lead _ _ _ Habc) as [H1 H2]. now rewrite H1, H2, Habc.
Qed.

Lemma strip_Spaces n : forall l, (length l <= n)%nat ->
  Session.Spaces (strip false l) -> Session.Spaces l.
Proof.
  induction n as [|n IH]; intros l Hl H.
  - destruct l; [constructor | simpl in Hl; lia].
  - rewrite strip_eq in H. destruct l as [|a r1]; [constructor|].
    simpl in Hl. destruct (space1 a) eqn:E1.
    { apply Session.spaces_1; [exact E1 | apply IH; [lia | exact H]]. }
    destruct r1 as [|b r2]; [exact H|]. simpl in Hl.
    destruct (space2 a b) eqn:E2.
    { apply Session.spaces_2; [exact E2 | apply IH; [lia | exact H]]. }
    destruct r2 as [|c r3]; [exact H|]. simpl in Hl.
    destruct (space3 a b c) eqn:E3; [|exact H].
    apply Session.spaces_3; [exact E3 | apply IH; [lia | exact H]].
Qed.

Lemma strip_back_Spaces n : forall l, (length l <= n)%nat ->
  strip true l = [] -> Session.Spaces (rev l).
Proof.
  induction n as [|n IH]; intros l Hl H.
  - destruct l; [constructor | simpl in Hl; lia].
  - rewrite strip_eq in H. destruct l as [|a r1]; [constructor|].
    simpl in Hl. destruct (space1 a) eqn:E1.
    { simpl. apply Spaces_app; [apply IH; [lia | exact H]|].
      apply Session.spaces_1; [exact E1 | constructor]. }
    destruct r1 as [|b r2]; [discriminate|]. simpl in Hl.
    destruct (space2 b a) eqn:E2.
    { simpl. rewrite <- app_assoc. apply Spaces_app; [apply IH; [lia | exact H]|].
      apply Session.spaces_2; [exact E2 | constructor]. }
    destruct r2 as [|c r3]; [discriminate|]. simpl in Hl.
    destruct (space3 c b a) eqn:E3; [|discriminate].
    simpl. rewrite <- !app_assoc. apply Spaces_app; [apply IH; [lia | exact H]|].
    apply Session.spaces_3; [exact E3 | constructor].
Qed.

Lemma trim_empty s : trim s = "" <-> Session.white_space_only s.
Proof.
  unfold trim, trim_end, trim_start, Session.white_space_only.
  set (l := list_ascii_of_string s). split.
  - intros E.
    assert (E' : rev (strip true (rev (strip false l))) = []).
    { destruct (rev (strip true (rev (strip false l)))); [reflexivity | discriminate]. }
    apply (f_equal (@rev ascii)) in E'. rewrite rev_involutive in E'. simpl in E'.
    apply (strip_back_Spaces _ _ (Nat.le_refl _)) in E'.
    rewrite rev_involutive in E'.
    exact (strip_Spaces _ _ (Nat.le_refl _) E').
  - intros H. now rewrite (Spaces_strip _ H).
Qed.

(** X17.  [trim] gives the empty string exactly on the strings made of
    white space only (every white-space code point of JavaScript counts,
    the no-break space among them, and is stripped at both ends), and such
    a text is never committed: with it in the input, no key changes
    anything. *)
Theorem blank_text_not_committed env key st :
  (forall s, trim s = "" <-> Session.white_space_only s) /\
  trim (" " ++ Session.nbsp ++ "a b" ++ Session.nbsp ++ " ") = "a b" /\
  (Session.white_space_only (textInput (ui st)) ->
   textKeyDown paint env key st = st).
Proof.
  split; [exact trim_empty|]. split; [reflexivity|].
  intros Hs. apply trim_empty in Hs. unfold textKeyDown. rewrite Hs. cbn.
  now rewrite andb_false_r.
Qed.

Lemma push_bounded_snoc i h :
  push_bounded i h = (if Nat.leb 30 (length h) then tail h else h) ++ [i].
Proof.
  unfold push_bounded. rewrite length_app. simpl length.
  destruct (Nat.ltb 30 (length h + 1)) eqn:E1;
    destruct (Nat.leb 30 (length h)) eqn:E2.
  - apply Nat.leb_le in E2. destruct h; [simpl in E2; lia | reflexivity].
  - apply Nat.ltb_lt in E1. apply Nat.leb_gt in E2. lia.
  - apply Nat.ltb_ge in E1. apply Nat.leb_le in E2. lia.
  - reflexivity.
Qed.

Lemma removelast_snoc2 {A} (l : list A) x y : removelast (l ++ [x; y]) = l ++ [x].
Proof.
  change (l ++ [x; y]) with (l ++ [x] ++ [y]). rewrite app_assoc.
  apply removelast_last.
Qed.

(** X18.  Undo takes back one save.  With a mounted canvas and a history of
    1 to 29 snapshots, [saveCanvas] followed by undo gives the history back
    as it was, leaves the canvas element in place and, when the context is
    there, asks for the snapshot that was on top before to be restored. *)
Theorem save_then_undo st c prev :
  canvasRef st = Some c ->
  (length (historyRef st) < 30)%nat ->
  last (historyRef st) = Some prev ->
  historyRef (handleUndo (saveCanvas st)) = historyRef st /\
  canvasRef (handleUndo (saveCanvas st)) = Some c /\
  (ctxRef st = true -> loading (handleUndo (saveCanvas st)) = loading st ++ [prev]).
Proof.
  intros Hc Hlen Hlast.
  assert (Hne : (1 <= length (historyRef st))%nat).
  { destruct (historyRef st); [discriminate | simpl; lia]. }
  assert (Hh : historyRef (saveCanvas st) = historyRef st ++ [toDataURL c]).
  { rewrite HistoryProofs.historyRef_saveCanvas, Hc.
    now apply HistoryProofs.push_bounded_room. }
  split; [|split].
  - rewrite HistoryProofs.historyRef_handleUndo, Hh, length_app. simpl.
    destruct (Nat.ltb_spec 1 (length (historyRef st) + 1)); [|lia].
    apply removelast_last.
  - now rewrite canvasRef_handleUndo, HistoryProofs.canvasRef_saveCanvas.
  - intros Hx. unfold handleUndo. rewrite Hh, length_app. simpl.
    destruct (Nat.ltb_spec 1 (length (historyRef st) + 1)); [|lia].
    rewrite removelast_last, Hlast. cbn.
    unfold restoreCanvas. cbn.
    rewrite HistoryProofs.canvasRef_saveCanvas, Hc, ctxRef_saveCanvas', Hx. cbn.
    now rewrite HistoryProofs.loading_saveCanvas.
Qed.

(** X19.  A local clear is taken back by one undo.  [clearBoard] pushes the
    snapshot of the canvas as it was and then that of the cleared canvas;
    the undo that follows drops the second, leaves the first on top of the
    history and asks for it to be restored. *)
Theorem clear_then_undo st c :
  canvasRef st = Some c -> ctxRef st = true ->
  let st' := handleUndo (clearBoard st) in
  last (historyRef st') = Some (toDataURL c) /\
  loading st' = loading st ++ [toDataURL c] /\
  exists h,
    historyRef (clearBoard st) =
      h ++ [toDataURL c; toDataURL (clearRect 0 0 (width c) (height c) c)].
Proof.
  intros Hc Hx st'.
  assert (Hh : exists h,
             historyRef (clearBoard st) =
               h ++ [toDataURL c; toDataURL (clearRect 0 0 (width c) (height c) c)]).
  { unfold clearBoard. rewrite HistoryProofs.historyRef_saveCanvas.
    cbn [canvasRef historyRef emit set_emitted on_ui].
    unfold clear_surface. rewrite ctxRef_saveCanvas', Hx.
    cbn [canvasRef historyRef on_canvas set_canvasRef].
    rewrite HistoryProofs.canvasRef_saveCanvas, Hc. cbn [fmap option_fmap option_map].
    rewrite HistoryProofs.historyRef_saveCanvas, Hc.
    rewrite (push_bounded_snoc (toDataURL c)), push_bounded_snoc.
    set (h1 := if Nat.leb 30 (length (historyRef st)) then tail (historyRef st)
               else historyRef st).
    destruct (Nat.leb 30 (length (h1 ++ [toDataURL c]))) eqn:E.
    - destruct h1 as [|x h1]; [discriminate E|].
      exists h1. simpl. now rewrite <- app_assoc.
    - exists h1. now rewrite <- app_assoc. }
  destruct Hh as (h & Hh).
  assert (Hl : (1 <? length (historyRef (clearBoard st)))%nat = true).
  { rewrite Hh, length_app. simpl. apply Nat.ltb_lt. lia. }
  assert (Hcb : exists c', canvasRef (clearBoard st) = Some c').
  { rewrite DrawingProofs.canvasRef_clearBoard, DrawingProofs.canvasRef_clear_surface.
    rewrite ctxRef_saveCanvas', Hx, HistoryProofs.canvasRef_saveCanvas, Hc.
    eexists. reflexivity. }
  destruct Hcb as (c' & Hc').
  assert (Hxb : ctxRef (clearBoard st) = true)
    by now rewrite DrawingProofs.ctxRef_clearBoard.
  assert (Hlb : loading (clearBoard st) = loading st).
  { unfold clearBoard. rewrite HistoryProofs.loading_saveCanvas.
    cbn [loading emit set_emitted on_ui]. unfold clear_surface.
    rewrite ctxRef_saveCanvas', Hx. cbn [loading on_canvas set_canvasRef].
    apply HistoryProofs.loading_saveCanvas. }
  split; [|split; [|now exists h]].
  - unfold st'. rewrite HistoryProofs.historyRef_handleUndo, Hl, Hh, removelast_snoc2.
    apply last_snoc.
  - unfold st', handleUndo. rewrite Hl, Hh, removelast_snoc2, last_snoc.
    cbn. unfold restoreCanvas. cbn. rewrite Hc', Hxb. cbn. now rewrite Hlb.
Qed.

#[local] Abbreviation put src w h b :=
  (filter (fun kv : (Z * Z) * Pixel => inside 1 0 0 w h (fst kv) = true) src ∪
   filter (fun kv : (Z * Z) * Pixel => inside 1 0 0 w h (fst kv) = false) b).

Lemma put_outside (src b : Bitmap) w h p :
  inside 1 0 0 w h p = false -> put src w h b !! p = b !! p.
Proof.
  intros Ho. rewrite lookup_union_r.
  - apply option_eq. intros x. rewrite map_lookup_filter_Some. cbn. tauto.
  - apply map_lookup_filter_None. right. intros x _. cbn. congruence.
Qed.

Lemma put_agree (src b1 b0 : Bitmap) w h :
  (forall p, inside 1 0 0 w h p = false -> b1 !! p = b0 !! p) ->
  put src w h b1 = put src w h b0.
Proof.
  intros H. f_equal. apply map_eq. intros p. apply option_eq. intros x.
  rewrite !map_lookup_filter_Some. cbn.
  split; intros [Hl Ho]; (split; [|exact Ho]);
    [rewrite <- (H p Ho) | rewrite (H p Ho)]; exact Hl.
Qed.

Lemma put_paint (src b : Bitmap) w h op cx :
  clips paint w h ->
  put src w h (paint op cx (put src w h b)) = put src w h b.
Proof.
  intros Hc. apply put_agree. intros p Ho.
  rewrite (Hc op cx _ p Ho). now apply put_outside.
Qed.

Lemma put_paint2 (src b : Bitmap) w h op cx op' cx' :
  clips paint w h ->
  put src w h (paint op' cx' (paint op cx (put src w h b))) = put src w h b.
Proof.
  intros Hc. apply put_agree. intros p Ho.
  rewrite (Hc op' cx' _ p Ho), (Hc op cx _ p Ho). now apply put_outside.
Qed.

Lemma preview_shape_again u t sx sy x1 y1 x2 y2 c :
  clips paint (width c) (height c) ->
  is_shape (tool u) = true ->
  preview_shape paint u (Some t) sx sy x2 y2
    (preview_shape paint u (Some t) sx sy x1 y1 c)
  = preview_shape paint u (Some t) sx sy x2 y2 c.
Proof.
  intros Hc Hs. destruct c as [w h b [p ss lw fs f lc lj sc]].
  cbn [width height] in Hc.
  unfold preview_shape.
  destruct (tool u); try discriminate Hs;
    cbv [drawArrow stroke strokeRect draw putImageData lineTo moveTo
         beginPath arcAround barbTo on_ctx set_bitmap set_ctx
         width height bitmap ctx path strokeStyle lineWidth fillStyle font
         lineCap lineJoin scale set_path set_strokeStyle set_lineWidth app];
    rewrite ?(put_paint2 _ _ _ _ _ _ _ _ Hc), ?(put_paint _ _ _ _ _ _ Hc);
    reflexivity.
Qed.

(** X20.  The preview of a shape leaves no ghost.  With a rasteriser that
    keeps to the canvas, while a line, rectangle, circle or arrow is being
    dragged, the canvas after two moves in a row is the canvas after the
    second move alone: every move starts again from the copy taken at the
    press. *)
Theorem preview_leaves_no_ghost e1 e2 st c t :
  clips paint (width c) (height c) ->
  is_shape (tool (ui st)) = true ->
  isDrawingRef st = true ->
  canvasRef st = Some c ->
  tempCanvasRef st = Some t ->
  canvasRef (handlePointerMove paint e2 (handlePointerMove paint e1 st))
  = canvasRef (handlePointerMove paint e2 st).
Proof.
  intros Hc Hs Hd Hcv Ht.
  destruct (pointer_move_facts e1 st Hd) as (_ & Hu & Hd1 & _).
  unfold handlePointerMove at 1 3. rewrite Hd1, Hd, Hu, Hs. cbn [negb].
  cbn [canvasRef emit set_emitted on_canvas set_canvasRef].
  unfold handlePointerMove. rewrite Hd, Hs. cbn [negb].
  cbn [canvasRef emit set_emitted on_canvas set_canvasRef tempCanvasRef startPosRef].
  rewrite Hcv, Ht. cbn [fmap option_fmap option_map]. f_equal.
  now apply preview_shape_again.
Qed.

End WithRasteriser.

Lemma clips_clipped_paint : clips clipped_paint 800 600.
Proof.
  intros op cx b p Ho. unfold clipped_paint.
  rewrite lookup_union_r.
  - apply option_eq. intros x. rewrite map_lookup_filter_Some. cbn. tauto.
  - apply map_lookup_filter_None. right. intros x _. cbn. congruence.
Qed.

Lemma lower_idem c : Shortcuts.lower (Shortcuts.lower c) = Shortcuts.lower c.
Proof.
  destruct c as [b0 b1 b2 b3 b4 b5 b6 b7].
  destruct b0, b1, b2, b3, b4, b5, b6, b7; reflexivity.
Qed.

Lemma toLowerCase_idem s :
  Shortcuts.toLowerCase (Shortcuts.toLowerCase s) = Shortcuts.toLowerCase s.
Proof.
  induction s as [|c r IH]; [reflexivity|]. simpl. now rewrite lower_idem, IH.
Qed.

Lemma shortcut_In key table action :
  Shortcuts.shortcut key table = Some action -> In (key, action) table.
Proof.
  induction table as [|[k a] rest IH]; [discriminate|]. simpl.
  destruct (String.eqb_spec k key) as [-> | _].
  - intros [= ->]. now left.
  - intros H. right. now apply IH.
Qed.

(** X21.  Keyboard shortcuts.  A key pressed outside an input or text area
    acts by its lower-case form, so with or without Shift; only b, e, t, l,
    r, c, a, z and s change anything; what a key does is select a tool or
    undo (export leaves the component alone), so it never emits and never
    touches the canvas element: undo by key is local. *)
Theorem keyboard_shortcuts tagName key st :
  Shortcuts.handleKeyDown tagName key st
    = Shortcuts.handleKeyDown tagName (Shortcuts.toLowerCase key) st /\
  (Shortcuts.handleKeyDown tagName key st <> st ->
   tagName <> "INPUT" /\ tagName <> "TEXTAREA" /\
   In (Shortcuts.toLowerCase key) Shortcuts.shortcut_keys) /\
  (Shortcuts.handleKeyDown tagName key st = st \/
   Shortcuts.handleKeyDown tagName key st = handleUndo st \/
   exists t, Shortcuts.handleKeyDown tagName key st = selectTool t st) /\
  emitted (Shortcuts.handleKeyDown tagName key st) = emitted st /\
  canvasRef (Shortcuts.handleKeyDown tagName key st) = canvasRef st.
Proof.
  assert (Hcases :
            Shortcuts.handleKeyDown tagName key st = st \/
            (tagName <> "INPUT" /\ tagName <> "TEXTAREA" /\
             In (Shortcuts.toLowerCase key) Shortcuts.shortcut_keys /\
             (Shortcuts.handleKeyDown tagName key st = handleUndo st \/
              exists t, Shortcuts.handleKeyDown tagName key st = selectTool t st))).
  { unfold Shortcuts.handleKeyDown.
    destruct (String.eqb_spec tagName "INPUT") as [-> | H1]; [now left|].
    destruct (String.eqb_spec tagName "TEXTAREA") as [-> | H2]; [now left|].
    cbn [orb].
    destruct (Shortcuts.shortcut (Shortcuts.toLowerCase key)
                Shortcuts.KEYBOARD_SHORTCUTS) as [action|] eqn:E; [|now left].
    pose proof (shortcut_In _ _ _ E) as Hin.
    assert (Hk : In (Shortcuts.toLowerCase key) Shortcuts.shortcut_keys)
      by (unfold Shortcuts.shortcut_keys; now apply (in_map fst) in Hin).
    unfold Shortcuts.KEYBOARD_SHORTCUTS in Hin. simpl in Hin.
    repeat (destruct Hin as [Hin | Hin];
            [injection Hin as _ <-; cbn;
             first [ now left
                   | right; repeat (split; [assumption|]); now left
                   | right; repeat (split; [assumption|]); right; eexists; reflexivity ]
            |]).
    contradiction. }
  split; [|split; [|split; [|split]]].
  - unfold Shortcuts.handleKeyDown. now rewrite toLowerCase_idem.
  - intros Hne. destruct Hcases as [H | (H1 & H2 & H3 & _)]; [contradiction|].
    now repeat split.
  - destruct Hcases as [H | (_ & _ & _ & [H | H])]; auto.
  - destruct Hcases as [-> | (_ & _ & _ & [-> | (t & ->)])]; [reflexivity | |].
    + apply emitted_handleUndo.
    + unfold selectTool. destruct (_ && _ && _)%bool; reflexivity.
  - destruct Hcases as [-> | (_ & _ & _ & [-> | (t & ->)])]; [reflexivity | |].
    + apply canvasRef_handleUndo.
    + unfold selectTool. destruct (_ && _ && _)%bool; reflexivity.
Qed.

(** A "drawing" applied by the joined client leaves its history and its
    settings alone. *)
Lemma remote_never_echoes_witness :
  historyRef (receive Demo.dot_paint "drawing" Demo.zero_size_message Demo.joined_client)
    = historyRef Demo.joined_client /\
  ui (receive Demo.dot_paint "drawing" Demo.zero_size_message Demo.joined_client)
    = ui Demo.joined_client.
Proof.
  refine (proj2 (proj2 (remote_never_echoes Demo.dot_paint "drawing"
                          Demo.zero_size_message Demo.joined_client)) _).
  discriminate.
Defined.

(** Join pressed on "demo1" before the socket is connected sends nothing
    and leaves one handler; a press, a move and a release of the joined
    client send messages of the client's six kinds only. *)
Lemma emissions_name_room_witness :
  (emitted (step Demo.dot_paint Join Demo.typing_client) = [] /\
   connectHandlers (step Demo.dot_paint Join Demo.typing_client) = ["demo1"]) /\
  Forall (fun m => In (fst m) client_events)
    (emitted (run Demo.dot_paint (gesture Demo.at_origin [Demo.further])
                Demo.joined_client)).
Proof.
  split.
  - refine (proj1 (proj2 (emissions_name_room Demo.dot_paint Join Demo.typing_client))
              _ _ _).
    + reflexivity.
    + reflexivity.
    + discriminate.
  - refine (proj1 (proj2 (proj2 (proj2
              (emissions_name_room Demo.dot_paint Undo Demo.joined_client)))) _ _).
    repeat constructor.
Defined.

(** Releasing the pointer of the drawing client. *)
Lemma stroke_ends_once_witness :
  emitted (stopDrawing drawing_client) =
    emitted drawing_client ++
      [("end-draw", JObj [("roomId", JStr "demo1"); ("tool", JStr "brush")])].
Proof.
  refine (proj1 (proj2 (proj2 (stroke_ends_once Demo.dot_paint Demo.further
                                 drawing_client)) _)).
  reflexivity.
Defined.

(** After a stroke and an undo, the button still follows the history. *)
Lemma undo_button_tracks_history_witness :
  undo_button_ok
    (run Demo.dot_paint (gesture Demo.at_origin [Demo.further] ++ [Undo])
       Demo.joined_client).
Proof.
  refine (proj1 (proj2 (undo_button_tracks_history Demo.dot_paint Undo
                          (gesture Demo.at_origin [Demo.further] ++ [Undo])
                          Demo.joined_client _))).
  reflexivity.
Defined.

Lemma canvas_mounted_when_joined_witness :
  mounted (run Demo.dot_paint [TypeRoom "demo1"; Join; SocketConnect; ClearBoard]
             initial).
Proof.
  refine (proj1 (proj2 (canvas_mounted_when_joined Demo.dot_paint Undo
                          [TypeRoom "demo1"; Join; SocketConnect; ClearBoard]
                          initial _))).
  split; discriminate.
Defined.

(** The joined client draws from (10, 10) to (50, 50): three messages. *)
Lemma gesture_protocol_witness :
  emitted (run Demo.dot_paint (gesture Demo.at_origin [Demo.further]) Demo.joined_client)
    = emitted Demo.joined_client
      ++ gesture_messages (ui Demo.joined_client) Demo.at_origin [Demo.further].
Proof.
  refine (proj1 (gesture_protocol Demo.dot_paint Demo.at_origin [Demo.further]
                   Demo.joined_client _ _ _)).
  - reflexivity.
  - reflexivity.
  - discriminate.
Defined.

(** Two clients in "demo1" with the same blank canvas: the stroke of one,
    replayed by the other, gives the same canvas. *)
Lemma brush_stroke_replicates_witness :
  canvasRef (replay Demo.dot_paint
               (gesture_messages (ui Demo.joined_client) Demo.at_origin [Demo.further])
               Demo.joined_client)
  = canvasRef (run Demo.dot_paint (gesture Demo.at_origin [Demo.further])
                 Demo.joined_client).
Proof.
  refine (proj2 (brush_stroke_replicates Demo.dot_paint Demo.at_origin [Demo.further]
                   Demo.joined_client Demo.joined_client _ _ _ _ _ _ _ _));
    try reflexivity; discriminate.
Defined.

(** The rectangle dragged by the framing client arrives as a polyline. *)
Lemma peer_draws_polyline_witness :
  exists c',
    canvasRef (replay Demo.dot_paint
                 (gesture_messages (ui framing_client) Demo.at_origin [Demo.further])
                 Demo.joined_client) = Some c' /\
    path (ctx c') =
      [MoveTo (JNum 10) (JNum 10); LineTo (JNum 50) (JNum 50); ClosePath].
Proof.
  exact (peer_draws_polyline Demo.dot_paint (ui framing_client) Demo.at_origin
           [Demo.further] Demo.joined_client _ eq_refl eq_refl eq_refl).
Defined.

(** "hello" committed at (120, 80) and applied by a peer with the same
    canvas. *)
Lemma text_replicates_witness :
  canvasRef (receive Demo.dot_paint "draw-text"
               (text_payload "demo1" "hello" 120 80 "#1e293b" 16) Demo.placing_client)
  = canvasRef (textKeyDown Demo.dot_paint Demo.env1 "Enter" Demo.placing_client).
Proof.
  refine (proj2 (text_replicates Demo.dot_paint Demo.env1 Demo.placing_client
                   Demo.placing_client _ _ _ _ eq_refl eq_refl eq_refl eq_refl eq_refl));
    discriminate.
Defined.

(** A placement at (120, 80), "hello" typed, then the brush chosen. *)
Lemma text_placement_is_local_witness :
  textInput
    (ui (selectTool BRUSH
           (on_ui (setTextInput "hello")
              (handlePointerDown Demo.dot_paint (mkPointerEvent 0 120 80 0 0)
                 (on_ui (setTool TEXT) Demo.joined_client))))) = "".
Proof.
  refine (proj1 (proj2 (proj2
            (text_placement_is_local Demo.dot_paint (mkPointerEvent 0 120 80 0 0)
               "hello" BRUSH (on_ui (setTool TEXT) Demo.joined_client) _ _ _)))).
  - reflexivity.
  - reflexivity.
  - discriminate.
Defined.

(** A space and a no-break space in the input: Enter does nothing. *)
Lemma blank_text_not_committed_witness :
  Session.white_space_only Session.blank_text /\
  textKeyDown Demo.dot_paint Demo.env1 "Enter"
    (on_ui (setTextInput Session.blank_text) Demo.placing_client)
  = on_ui (setTextInput Session.blank_text) Demo.placing_client.
Proof.
  assert (H : Session.white_space_only Session.blank_text).
  { apply Session.spaces_1; [reflexivity|].
    apply Session.spaces_2; [reflexivity|]. apply Session.spaces_nil. }
  split; [exact H|].
  exact (proj2 (proj2 (blank_text_not_committed Demo.dot_paint Demo.env1 "Enter"
                   (on_ui (setTextInput Session.blank_text) Demo.placing_client)))
           H).
Defined.

(** The joined client, with its one blank snapshot, saves and undoes. *)
Lemma save_then_undo_witness :
  historyRef (handleUndo (saveCanvas Demo.joined_client))
    = historyRef Demo.joined_client.
Proof.
  exact (proj1 (save_then_undo Demo.joined_client _ _ eq_refl
                  ltac:(vm_compute; lia) eq_refl)).
Defined.

(** The drawing client clears and undoes: the snapshot with its stroke is
    on top again. *)
Lemma clear_then_undo_witness :
  exists c,
    canvasRef drawing_client = Some c /\
    last (historyRef (handleUndo (clearBoard drawing_client)))
      = Some (toDataURL c).
Proof.
  set (c := match canvasRef drawing_client with Some c => c | None => new_canvas end).
  assert (Hc : canvasRef drawing_client = Some c) by (vm_compute; reflexivity).
  assert (Hx : ctxRef drawing_client = true) by (vm_compute; reflexivity).
  exists c. split; [exact Hc|].
  exact (proj1 (clear_then_undo drawing_client c Hc Hx)).
Defined.

(** The rectangle of the framing client dragged to (50, 50) and on to
    (10, 10) leaves what the drag to (10, 10) alone leaves. *)
Lemma preview_leaves_no_ghost_witness :
  canvasRef (handlePointerMove clipped_paint Demo.at_origin
               (handlePointerMove clipped_paint Demo.further framing_client))
  = canvasRef (handlePointerMove clipped_paint Demo.at_origin framing_client).
Proof.
  set (c := match canvasRef framing_client with Some c => c | None => new_canvas end).
  set (t := match tempCanvasRef framing_client with Some t => t | None => new_canvas end).
  assert (Hc : canvasRef framing_client = Some c) by (vm_compute; reflexivity).
  assert (Ht : tempCanvasRef framing_client = Some t) by (vm_compute; reflexivity).
  assert (Hw : width c = 800) by (vm_compute; reflexivity).
  assert (Hh : height c = 600) by (vm_compute; reflexivity).
  refine (preview_leaves_no_ghost clipped_paint Demo.further Demo.at_origin
            framing_client c t _ _ _ Hc Ht).
  - rewrite Hw, Hh. exact clips_clipped_paint.
  - vm_compute. reflexivity.
  - vm_compute. reflexivity.
Defined.

(** Shift+E on the page selects the eraser; "E" lowers to "e". *)
Lemma keyboard_shortcuts_witness :
  In (Shortcuts.toLowerCase "E") Shortcuts.shortcut_keys.
Proof.
  refine (proj2 (proj2 (proj1 (proj2
            (keyboard_shortcuts "BODY" "E" Demo.joined_client)) _))).
  intros H. apply (f_equal (fun s => tool (ui s))) in H. discriminate H.
Defined.

End ClientMore.
